(** * swagger-merger: the normalise-and-merge pipeline of [pkg/merger/merger.go]

    The development follows the Go package function by function:
    [DefaultServers], [New], [detectSwaggerVersion], [convertToOpenAPI3],
    [mergeOpenAPI3], [readDataFromPath], [processSwaggerFile], [Merge] and
    [GetStats].  Go values are modelled as the program has them: a slice or a
    map may be [nil], a pointer may be [nil], and a call returns a value, an
    error, or panics. *)

From Stdlib Require Import Ascii ZArith Lia.
From stdpp Require Import base option list sorting gmap fin_maps strings pretty.

(** ** Results of Go calls *)

(** A Go call of type [(A, error)] returns a value ([Ok]), returns a non-nil
    error carrying its message ([Err]), or panics ([Panic], a nil
    dereference or a write into a nil map). *)
Inductive outcome (A : Type) : Type :=
  | Ok (a : A)
  | Err (msg : string)
  | Panic.
Arguments Ok {A} a.
Arguments Err {A} msg.
Arguments Panic {A}.

#[global] Instance outcome_bind : MBind outcome := λ A B f x,
  match x with
  | Ok a => f a
  | Err msg => Err msg
  | Panic => Panic
  end.

#[global] Instance outcome_ret : MRet outcome := λ A a, Ok a.

(** A call into a library or the operating system, of type [(A, error)]:
    the value, or the error. *)
Inductive result (A : Type) : Type :=
  | Success (a : A)
  | Failure (msg : string).
Arguments Success {A} a.
Arguments Failure {A} msg.

Definition returns {A} (r : result A) : outcome A :=
  match r with
  | Success a => Ok a
  | Failure msg => Err msg
  end.
Coercion returns : result >-> outcome.

(** ** Go slices and maps *)

(** [[]A]: [None] is the nil slice, [Some l] a non-nil slice with elements
    [l].  [map[string]V]: [None] is the nil map. *)
Abbreviation slice A := (option (list A)).
Abbreviation gomap V := (option (gmap string V)).
Abbreviation bytes := string (only parsing).

Definition elems {A} (s : slice A) : list A := default [] s.

(** [len(s)] *)
Definition len {A} (s : slice A) : nat := length (elems s).

(** [append(s, xs...)]: appending nothing returns [s] itself, so a nil
    slice stays nil. *)
Definition append {A} (s : slice A) (xs : list A) : slice A :=
  match xs with
  | [] => s
  | _ :: _ => Some (elems s ++ xs)
  end.

(** [v, exists := m[k]]: reading a nil map finds nothing. *)
Definition mapindex {V} (m : gomap V) (k : string) : option V :=
  m ≫= λ g, g !! k.

(** [len(m)] *)
Definition maplen {V} (m : gomap V) : nat :=
  match m with
  | None => 0
  | Some g => size g
  end.

(** [m[k] = v]: assignment to an entry of a nil map panics. *)
Definition mapassign {V} (m : gomap V) (k : string) (v : V) : outcome (gomap V) :=
  match m with
  | None => Panic
  | Some g => Ok (Some (<[k:=v]> g))
  end.

(** [for k, v := range src { dst[k] = v }] *)
Definition range_assign {V} (dst : gomap V) (src : gmap string V) : outcome (gomap V) :=
  map_fold (λ k v acc, acc ≫= λ m, mapassign m k v) (Ok dst) src.

(** ** The kin-openapi document types the package works on

    The merger never looks inside a path item, a schema or any other
    definition: it copies the reference.  Those types are kept abstract. *)
Module openapi3.

Class Refs := {
  PathItem : Type;
  SchemaRef : Type;
  ResponseRef : Type;
  ParameterRef : Type;
  RequestBodyRef : Type;
  HeaderRef : Type;
  Other : Type
}.

Section types.
Context {R : Refs}.

Record Info := {
  Info_Title : string;
  Info_Description : string;
  Info_Version : string
}.

Record Tag := {
  Tag_Name : string;
  Tag_Description : string
}.

Record Server := {
  Server_Extensions : gomap Other;
  Server_URL : string;
  Server_Description : string;
  Server_Variables : gomap Other
}.

(** [type Paths struct { Extensions map[string]any; m map[string]*PathItem }],
    always handled through a pointer [*Paths]. *)
Record Paths := {
  Paths_Extensions : gomap Other;
  Paths_m : gomap PathItem
}.

(** [&openapi3.Paths{}] *)
Definition Paths_zero : Paths :=
  {| Paths_Extensions := None; Paths_m := None |}.

(** [func (paths *Paths) Map() map[string]*PathItem]: a copy of the entries.
    Like [Len] and [Value], the method accepts a nil receiver: a nil
    pointer or an unset inner map gives a fresh empty map. *)
Definition Paths_Map (paths : option Paths) : gmap string PathItem :=
  match paths with
  | None => ∅
  | Some p => default ∅ (Paths_m p)
  end.

(** [func (paths *Paths) Set(key string, value *PathItem)]: the receiver
    must not be nil; the inner map is created on the first write. *)
Definition Paths_Set (paths : Paths) (key : string) (value : PathItem) : Paths :=
  {| Paths_Extensions := Paths_Extensions paths;
     Paths_m := Some (<[key:=value]> (default ∅ (Paths_m paths))) |}.

Record Components := {
  Components_Extensions : gomap Other;
  Schemas : gomap SchemaRef;
  Parameters : gomap ParameterRef;
  Headers : gomap HeaderRef;
  RequestBodies : gomap RequestBodyRef;
  Responses : gomap ResponseRef;
  SecuritySchemes : gomap Other;
  Examples : gomap Other;
  Links : gomap Other;
  Callbacks : gomap Other
}.

(** [openapi3.T], the root of a document.  The library declares
    [Components *Components], [Info *Info] and [Paths *Paths]: the three
    fields are pointers and may be nil. *)
Record T := {
  T_Extensions : gomap Other;
  T_OpenAPI : string;
  T_Components : option Components;
  T_Info : option Info;
  T_Paths : option Paths;
  T_Security : slice Other;
  T_Servers : slice Server;
  T_Tags : slice Tag;
  T_ExternalDocs : option Other
}.

(** Field assignments [doc.F = v]. *)
Definition set_OpenAPI (doc : T) (v : string) : T :=
  {| T_Extensions := T_Extensions doc; T_OpenAPI := v;
     T_Components := T_Components doc; T_Info := T_Info doc;
     T_Paths := T_Paths doc; T_Security := T_Security doc;
     T_Servers := T_Servers doc; T_Tags := T_Tags doc;
     T_ExternalDocs := T_ExternalDocs doc |}.

Definition set_Components (doc : T) (v : option Components) : T :=
  {| T_Extensions := T_Extensions doc; T_OpenAPI := T_OpenAPI doc;
     T_Components := v; T_Info := T_Info doc;
     T_Paths := T_Paths doc; T_Security := T_Security doc;
     T_Servers := T_Servers doc; T_Tags := T_Tags doc;
     T_ExternalDocs := T_ExternalDocs doc |}.

Definition set_Paths (doc : T) (v : option Paths) : T :=
  {| T_Extensions := T_Extensions doc; T_OpenAPI := T_OpenAPI doc;
     T_Components := T_Components doc; T_Info := T_Info doc;
     T_Paths := v; T_Security := T_Security doc;
     T_Servers := T_Servers doc; T_Tags := T_Tags doc;
     T_ExternalDocs := T_ExternalDocs doc |}.

Definition set_Servers (doc : T) (v : slice Server) : T :=
  {| T_Extensions := T_Extensions doc; T_OpenAPI := T_OpenAPI doc;
     T_Components := T_Components doc; T_Info := T_Info doc;
     T_Paths := T_Paths doc; T_Security := T_Security doc;
     T_Servers := v; T_Tags := T_Tags doc;
     T_ExternalDocs := T_ExternalDocs doc |}.

Definition set_Tags (doc : T) (v : slice Tag) : T :=
  {| T_Extensions := T_Extensions doc; T_OpenAPI := T_OpenAPI doc;
     T_Components := T_Components doc; T_Info := T_Info doc;
     T_Paths := T_Paths doc; T_Security := T_Security doc;
     T_Servers := T_Servers doc; T_Tags := v;
     T_ExternalDocs := T_ExternalDocs doc |}.

End types.
End openapi3.

Import openapi3.

(** ** [mergeOpenAPI3]

    The accumulator [merged] is [docs[0]] itself, updated in place.  Every
    document handed to the merger comes from its own [processSwaggerFile]
    call, so the documents are distinct objects and the in-place update is
    written as a new value of the accumulator. *)
Section merge.
Context {R : Refs}.

(** Lines 139-146. *)
Definition merge_paths (merged doc : T) : T :=
  match T_Paths doc with
  | None => merged
  | Some _ =>
      let paths :=
        match T_Paths merged with
        | None => Paths_zero
        | Some p => p
        end in
      set_Paths merged
        (Some (map_fold (λ path item p, Paths_Set p path item) paths
                        (Paths_Map (T_Paths doc))))
  end.

(** [if m == nil { m = map{} }] *)
Definition init_map {V} (m : gomap V) : gomap V :=
  match m with
  | None => Some ∅
  | Some g => Some g
  end.

(** Lines 149-163: only the five sub-maps are initialised; [merged.Components]
    itself is dereferenced by the caller. *)
Definition init_components (c : Components) : Components :=
  {| Components_Extensions := Components_Extensions c;
     Schemas := init_map (Schemas c);
     Parameters := init_map (Parameters c);
     Headers := init_map (Headers c);
     RequestBodies := init_map (RequestBodies c);
     Responses := init_map (Responses c);
     SecuritySchemes := SecuritySchemes c;
     Examples := Examples c;
     Links := Links c;
     Callbacks := Callbacks c |}.

(** [if src != nil { for k, v := range src { dst[k] = v } }] *)
Definition merge_map {V} (dst src : gomap V) : outcome (gomap V) :=
  match src with
  | None => Ok dst
  | Some s => range_assign dst s
  end.

(** Lines 166-190, in the order of the source. *)
Definition merge_components (mc dc : Components) : outcome Components :=
  schemas ← merge_map (Schemas mc) (Schemas dc);
  responses ← merge_map (Responses mc) (Responses dc);
  parameters ← merge_map (Parameters mc) (Parameters dc);
  requestBodies ← merge_map (RequestBodies mc) (RequestBodies dc);
  headers ← merge_map (Headers mc) (Headers dc);
  Ok {| Components_Extensions := Components_Extensions mc;
        Schemas := schemas;
        Parameters := parameters;
        Headers := headers;
        RequestBodies := requestBodies;
        Responses := responses;
        SecuritySchemes := SecuritySchemes mc;
        Examples := Examples mc;
        Links := Links mc;
        Callbacks := Callbacks mc |}.

(** Lines 193-195. *)
Definition merge_tags (merged doc : T) : T :=
  match T_Tags doc with
  | None => merged
  | Some tags => set_Tags merged (append (T_Tags merged) tags)
  end.

(** One iteration of the loop body, lines 136-195. *)
Definition merge_doc (merged doc : T) : outcome T :=
  let merged := merge_paths merged doc in
  match T_Components merged with
  | None => Panic
  | Some mc =>
      let mc := init_components mc in
      match T_Components doc with
      | None => Panic
      | Some dc =>
          mc ← merge_components mc dc;
          Ok (merge_tags (set_Components merged (Some mc)) doc)
      end
  end.

(** [for i := 1; i < len(docs); i++ { ... }] over [docs[1:]]. *)
Fixpoint merge_loop (merged : T) (rest : list T) : outcome T :=
  match rest with
  | [] => Ok merged
  | doc :: rest => merge_doc merged doc ≫= λ merged, merge_loop merged rest
  end.

Definition mergeOpenAPI3 (docs : list T) : outcome T :=
  match docs with
  | [] => Err "no documents to merge"
  | merged :: rest => merge_loop merged rest
  end.

(** The path entries of a document as the loop and [GetStats] read them:
    [doc.Paths.Map()]. *)
Definition path_map (doc : T) : gmap string PathItem := Paths_Map (T_Paths doc).

(** [doc.Components != nil] *)
Definition has_components (doc : T) : Prop := is_Some (T_Components doc).

(** The components of the accumulator after an iteration that did not
    panic: each of the five maps holds the incoming entries over the
    accumulator's. *)
Definition merged_components (mc dc : Components) : Components :=
  {| Components_Extensions := Components_Extensions mc;
     Schemas := Some (default ∅ (Schemas dc) ∪ default ∅ (Schemas mc));
     Parameters := Some (default ∅ (Parameters dc) ∪ default ∅ (Parameters mc));
     Headers := Some (default ∅ (Headers dc) ∪ default ∅ (Headers mc));
     RequestBodies :=
       Some (default ∅ (RequestBodies dc) ∪ default ∅ (RequestBodies mc));
     Responses := Some (default ∅ (Responses dc) ∪ default ∅ (Responses mc));
     SecuritySchemes := SecuritySchemes mc;
     Examples := Examples mc;
     Links := Links mc;
     Callbacks := Callbacks mc |}.

End merge.

(** ** Later maps win: the pure counterpart of the fold over the documents *)

Definition overlay {V} (acc m : gmap string V) : gmap string V := m ∪ acc.

Definition last_wins {V} (ms : list (gmap string V)) : gmap string V :=
  foldl overlay ∅ ms.

Definition pairwise_disjoint {V} (ms : list (gmap string V)) : Prop :=
  ∀ i j mi mj, i ≠ j → ms !! i = Some mi → ms !! j = Some mj →
    dom mi ## dom mj.

(** ** Package [merger]: configuration *)

Record SwaggerVersion := {
  Version : string;
  IsYAML : bool
}.

Record Server := {
  URL : string;
  Description : string
}.

Record Config := {
  InputPaths : slice string;
  OutputPath : string;
  Servers : slice Server
}.

Record Merger := {
  config : Config
}.

Definition DefaultServers : slice Server :=
  Some [ {| URL := "https://api-dev.domain.com";
            Description := "Development Environment" |};
         {| URL := "https://api-test.domain.com";
            Description := "Test Environment" |};
         {| URL := "https://api-stg.domain.com";
            Description := "Staging Environment" |};
         {| URL := "https://api.domain.com";
            Description := "Production Environment" |} ].

(** [if config.Servers == nil { config.Servers = DefaultServers() }] *)
Definition New (config : Config) : Merger :=
  {| config :=
       match Servers config with
       | None =>
           {| InputPaths := InputPaths config;
              OutputPath := OutputPath config;
              Servers := DefaultServers |}
       | Some _ => config
       end |}.

(** ** The libraries and the operating system the package calls

    The YAML and JSON codecs, the kin-openapi loader and converter, the HTTP
    client and the file system are collaborators of the package, given here
    as the operations the package calls.  An [error] is its message. *)

(** [*http.Response] as the package uses it: the status code, and what
    [io.ReadAll(resp.Body)] returns. *)
Record Response := {
  StatusCode : Z;
  Body : result bytes
}.

Class Libs {R : Refs} := {
  (** [interface{}], the values of a generic [map[string]interface{}] *)
  any : Type;
  (** [fmt.Sprintf("%v", v)] *)
  Sprintf_v : any → string;
  (** [yaml.Unmarshal(data, &obj)]: the map [obj] after the call, and the
      error *)
  yaml_Unmarshal : bytes → gomap any → gomap any * option string;
  (** [json.Unmarshal(data, &obj)] *)
  json_Unmarshal : bytes → gomap any → gomap any * option string;
  (** [json.Marshal(obj)] *)
  json_Marshal : gomap any → result bytes;
  (** [yaml.Marshal(doc)] *)
  yaml_Marshal : T → result bytes;
  (** [openapi3.NewLoader().LoadFromData(data)] *)
  LoadFromData : bytes → result T;
  (** [openapi2.T] and its [UnmarshalJSON] *)
  openapi2_T : Type;
  openapi2_UnmarshalJSON : bytes → result openapi2_T;
  (** [openapi2conv.ToV3] *)
  openapi2conv_ToV3 : openapi2_T → result T;
  (** [client.Get(path)] with the 30 second timeout: the response, or the
      transport error *)
  http_Get : string → result Response;
  (** [os.ReadFile(path)] *)
  os_ReadFile : string → result bytes;
  (** [os.WriteFile(path, data, 0644)]: the error, if any *)
  os_WriteFile : string → bytes → option string
}.

(** [fmt.Errorf(prefix + "%v", err)] around a failed call. *)
Definition wrap {A} (prefix : string) (r : outcome A) : outcome A :=
  match r with
  | Ok a => Ok a
  | Err msg => Err (prefix +:+ msg)
  | Panic => Panic
  end.

(** An error message names a locator when the locator occurs in it. *)
Definition names (msg locator : string) : Prop :=
  ∃ before after, msg = before +:+ locator +:+ after.

Section merger.
Context {R : Refs} {L : Libs}.

(** ** [detectSwaggerVersion] *)

(** The key inspection shared by the two attempts: [swagger] is looked up
    first, then [openapi]. *)
Definition inspect (obj : gomap any) (isYAML : bool) : option SwaggerVersion :=
  match mapindex obj "swagger" with
  | Some version => Some {| Version := Sprintf_v version; IsYAML := isYAML |}
  | None =>
      match mapindex obj "openapi" with
      | Some version => Some {| Version := Sprintf_v version; IsYAML := isYAML |}
      | None => None
      end
  end.

(** Both decoders write into the same variable [obj], which starts nil. *)
Definition detectSwaggerVersion (data : bytes) : outcome SwaggerVersion :=
  let '(obj, err) := yaml_Unmarshal data None in
  match match err with None => inspect obj true | Some _ => None end with
  | Some version => Ok version
  | None =>
      let '(obj, err) := json_Unmarshal data obj in
      match match err with None => inspect obj false | Some _ => None end with
      | Some version => Ok version
      | None => Err "unable to detect swagger/openapi version"
      end
  end.

(** ** [convertToOpenAPI3] *)

Definition convertToOpenAPI3 (data : bytes) (version : SwaggerVersion) : outcome T :=
  if String.prefix "3." (Version version) then LoadFromData data
  else
    data ←
      (if IsYAML version then
         let '(jsonObj, err) := yaml_Unmarshal data None in
         match err with
         | Some msg => Err ("failed to parse YAML to map: " +:+ msg)
         | None => wrap "failed to marshal YAML to JSON: " (json_Marshal jsonObj)
         end
       else Ok data);
    swagger2Doc ← wrap "failed to parse Swagger2 JSON: " (openapi2_UnmarshalJSON data);
    wrap "convert to openapi 3.0 failed: " (openapi2conv_ToV3 swagger2Doc).

(** ** [readDataFromPath] *)

Definition is_url (path : string) : bool :=
  String.prefix "http://" path || String.prefix "https://" path.

(** [http.StatusOK] *)
Definition StatusOK : Z := 200.

Definition readDataFromPath (path : string) : outcome bytes :=
  if is_url path then
    match http_Get path with
    | Failure msg => Err ("failed to fetch URL " +:+ path +:+ ": " +:+ msg)
    | Success resp =>
        if bool_decide (StatusCode resp ≠ StatusOK) then
          Err ("HTTP request failed with status " +:+ pretty (StatusCode resp)
               +:+ " for URL " +:+ path)
        else
          wrap ("failed to read response body from " +:+ path +:+ ": ") (Body resp)
    end
  else
    wrap ("failed to read file " +:+ path +:+ ": ") (os_ReadFile path).

(** ** [processSwaggerFile] *)

(** [&openapi3.Server{URL: server.URL, Description: server.Description}] *)
Definition to_openapi3_server (server : Server) : openapi3.Server :=
  {| Server_Extensions := None;
     Server_URL := URL server;
     Server_Description := Description server;
     Server_Variables := None |}.

Definition processSwaggerFile (m : Merger) (filePath : string) : outcome T :=
  data ← wrap ("failed to read " +:+ filePath +:+ ": ") (readDataFromPath filePath);
  version ← wrap ("failed to detect version for " +:+ filePath +:+ ": ")
                 (detectSwaggerVersion data);
  doc ← wrap ("failed to convert " +:+ filePath +:+ ": ")
             (convertToOpenAPI3 data version);
  let doc := set_OpenAPI doc "3.0.1" in
  let servers := Some (to_openapi3_server <$> elems (Servers (config m))) in
  Ok (set_Servers doc servers).

(** ** [Merge] and [GetStats] *)

(** The loop that processes the inputs in order and stops at the first
    failure; [docs] is the slice filled so far. *)
Fixpoint process_inputs (m : Merger) (paths : list string) (docs : list T)
    : outcome (list T) :=
  match paths with
  | [] => Ok docs
  | filePath :: paths =>
      doc ← wrap ("error processing " +:+ filePath +:+ ": ")
                 (processSwaggerFile m filePath);
      process_inputs m paths (docs ++ [doc])
  end.

(** A run of [Merge]: what it returns, and the calls to [os.WriteFile] it
    made, with their arguments. *)
Record run := {
  returned : outcome ();
  writes : list (string * bytes)
}.

Definition Merge (m : Merger) : run :=
  if bool_decide (len (InputPaths (config m)) = 0) then
    {| returned := Err "no input paths provided"; writes := [] |}
  else if bool_decide (OutputPath (config m) = "") then
    {| returned := Err "output path is required"; writes := [] |}
  else
    match process_inputs m (elems (InputPaths (config m))) [] with
    | Err msg => {| returned := Err msg; writes := [] |}
    | Panic => {| returned := Panic; writes := [] |}
    | Ok docs =>
        match wrap "error merging documents: " (mergeOpenAPI3 docs) with
        | Err msg => {| returned := Err msg; writes := [] |}
        | Panic => {| returned := Panic; writes := [] |}
        | Ok merged =>
            match wrap "error marshaling to YAML: " (yaml_Marshal merged) with
            | Err msg => {| returned := Err msg; writes := [] |}
            | Panic => {| returned := Panic; writes := [] |}
            | Ok out =>
                {| returned :=
                     match os_WriteFile (OutputPath (config m)) out with
                     | Some msg => Err ("error writing file: " +:+ msg)
                     | None => Ok ()
                     end;
                   writes := [(OutputPath (config m), out)] |}
            end
        end
    end.

(** The map literal of lines 372-377; its entries are evaluated in order,
    and [merged.Components.Schemas] dereferences [merged.Components]. *)
Definition stats_of (m : Merger) (merged : T) : outcome (gmap string Z) :=
  let total_files := Z.of_nat (len (InputPaths (config m))) in
  let total_paths := Z.of_nat (size (Paths_Map (T_Paths merged))) in
  match T_Components merged with
  | None => Panic
  | Some components =>
      let total_schemas := Z.of_nat (maplen (Schemas components)) in
      let total_tags := Z.of_nat (len (T_Tags merged)) in
      Ok (<["total_files" := total_files]>
          (<["total_paths" := total_paths]>
           (<["total_schemas" := total_schemas]>
            (<["total_tags" := total_tags]> ∅))))
  end.

Definition GetStats (m : Merger) : outcome (gmap string Z) :=
  if bool_decide (len (InputPaths (config m)) = 0) then
    Err "no input paths provided"
  else
    docs ← process_inputs m (elems (InputPaths (config m))) [];
    merged ← wrap "error merging documents: " (mergeOpenAPI3 docs);
    stats_of m merged.

End merger.

(** ** A recorded environment and sample documents for the examples

    Library and operating-system calls are given by tables of recorded
    responses: what the real call returns on that input.  A reference to a
    path item or a schema is written as the place it comes from. *)
Module sample.

Definition refs : Refs :=
  {| PathItem := string; SchemaRef := string; ResponseRef := string;
     ParameterRef := string; RequestBodyRef := string; HeaderRef := string;
     Other := string |}.

(** Decoded generic values: strings, lists and nested maps (fields listed in
    key order, the order in which [%v] prints a map). *)
#[local] Unset Elimination Schemes.
Inductive value : Type :=
  | Str (s : string)
  | Arr (items : list value)
  | Obj (fields : list (string * value)).
#[local] Set Elimination Schemes.

(** [fmt.Sprintf("%v", v)] on these values. *)
Fixpoint format (v : value) : string :=
  match v with
  | Str s => s
  | Arr items =>
      "[" +:+
      (fix go (items : list value) : string :=
         match items with
         | [] => ""
         | [v] => format v
         | v :: items => format v +:+ " " +:+ go items
         end) items +:+ "]"
  | Obj fields =>
      "map[" +:+
      (fix go (fields : list (string * value)) : string :=
         match fields with
         | [] => ""
         | [(k, v)] => k +:+ ":" +:+ format v
         | (k, v) :: fields => k +:+ ":" +:+ format v +:+ " " +:+ go fields
         end) fields +:+ "]"
  end.

(** The double quote character, and a quoted JSON string. *)
Definition dq : string := String (Ascii.ascii_of_nat 34) EmptyString.
Definition q (s : string) : string := dq +:+ s +:+ dq.

(** [{"swagger":"2.0","info":{"title":"X"}}] *)
Definition swagger2_json : bytes :=
  "{" +:+ q "swagger" +:+ ":" +:+ q "2.0" +:+ "," +:+ q "info" +:+ ":{"
  +:+ q "title" +:+ ":" +:+ q "X" +:+ "}}".

(** [{"openapi":"3.0.0","info":{},"info":{}}]: JSON with a repeated key,
    which [encoding/json] accepts and [yaml.v3] rejects. *)
Definition repeated_key_json : bytes :=
  "{" +:+ q "openapi" +:+ ":" +:+ q "3.0.0" +:+ "," +:+ q "info" +:+ ":{},"
  +:+ q "info" +:+ ":{}}".

Definition api_a_yaml : bytes :=
"openapi: 3.0.0
info:
  title: A
  version: 1.0.0
servers:
  - url: https://declared.example
paths:
  /a: {}
components:
  schemas:
    S1: {}
".

(** A document with neither [paths] nor [components]. *)
Definition bare_yaml : bytes :=
"openapi: 3.0.0
info:
  title: Bare
  version: 1.0.0
".

(** A document with [components] and no [paths]. *)
Definition schemas_yaml : bytes :=
"openapi: 3.0.0
info:
  title: Schemas
  version: 1.0.0
components:
  schemas:
    S3: {}
".

(** A Swagger 2 document in YAML. *)
Definition legacy_yaml : bytes :=
  "swagger: " +:+ q "2.0" +:+ "
info:
  title: B
  version: 1.0.0
paths:
  /b: {}
definitions:
  S2: {}
".

(** Its JSON form, as [json.Marshal] writes the decoded map: compact, keys
    in order. *)
Definition legacy_json : bytes :=
  "{" +:+ q "definitions" +:+ ":{" +:+ q "S2" +:+ ":{}},"
  +:+ q "info" +:+ ":{" +:+ q "title" +:+ ":" +:+ q "B" +:+ ","
  +:+ q "version" +:+ ":" +:+ q "1.0.0" +:+ "},"
  +:+ q "paths" +:+ ":{" +:+ q "/b" +:+ ":{}},"
  +:+ q "swagger" +:+ ":" +:+ q "2.0" +:+ "}".

(** A YAML mapping with neither a [swagger] nor an [openapi] key. *)
Definition notes_yaml : bytes :=
"title: Notes
".

Fixpoint recorded {A} (table : list (string * A)) (key : string) : option A :=
  match table with
  | [] => None
  | (k, a) :: table => if String.eqb k key then Some a else recorded table key
  end.

(** A generic decoder given by its table: on a recorded input the decoded
    entries are stored into [obj] (the map is created when nil); any other
    input is a decoding error and leaves [obj] as it was. *)
Definition decode (table : list (bytes * list (string * value))) (failure : string)
    (data : bytes) (obj : gomap value) : gomap value * option string :=
  match recorded table data with
  | Some entries => (Some (list_to_map entries ∪ default ∅ obj), None)
  | None => (obj, Some failure)
  end.

Definition info_of (title : string) : value :=
  Obj [("title", Str title); ("version", Str "1.0.0")].

(** [yaml.v3] reads block YAML and, JSON being YAML flow syntax, the JSON
    document as well; it rejects the repeated key. *)
Definition yaml_table : list (bytes * list (string * value)) :=
  [ (swagger2_json, [("swagger", Str "2.0"); ("info", Obj [("title", Str "X")])]);
    (api_a_yaml,
      [("openapi", Str "3.0.0"); ("info", info_of "A");
       ("servers", Arr [Obj [("url", Str "https://declared.example")]]);
       ("paths", Obj [("/a", Obj [])]);
       ("components", Obj [("schemas", Obj [("S1", Obj [])])])]);
    (bare_yaml, [("openapi", Str "3.0.0"); ("info", info_of "Bare")]);
    (schemas_yaml,
      [("openapi", Str "3.0.0"); ("info", info_of "Schemas");
       ("components", Obj [("schemas", Obj [("S3", Obj [])])])]);
    (legacy_yaml,
      [("swagger", Str "2.0"); ("info", info_of "B");
       ("paths", Obj [("/b", Obj [])]);
       ("definitions", Obj [("S2", Obj [])])]);
    (notes_yaml, [("title", Str "Notes")]) ].

(** [json.Marshal] on these values: strings quoted, no white space, the
    keys of a map in order. *)
Fixpoint marshal (v : value) : string :=
  match v with
  | Str s => q s
  | Arr items =>
      "[" +:+
      (fix go (items : list value) : string :=
         match items with
         | [] => ""
         | [v] => marshal v
         | v :: items => marshal v +:+ "," +:+ go items
         end) items +:+ "]"
  | Obj fields =>
      "{" +:+
      (fix go (fields : list (string * value)) : string :=
         match fields with
         | [] => ""
         | [(k, v)] => q k +:+ ":" +:+ marshal v
         | (k, v) :: fields => q k +:+ ":" +:+ marshal v +:+ "," +:+ go fields
         end) fields +:+ "}"
  end.

Definition by_key (x y : string * value) : Prop := String.le x.1 y.1.

Definition by_key_dec : RelDecision by_key :=
  λ x y, decide (String.le x.1 y.1).

Definition marshal_map (obj : gomap value) : result bytes :=
  match obj with
  | None => Success "null"
  | Some m => Success (marshal (Obj (@merge_sort _ by_key by_key_dec (map_to_list m))))
  end.

(** [encoding/json] reads the two JSON documents only. *)
Definition json_table : list (bytes * list (string * value)) :=
  [ (swagger2_json, [("swagger", Str "2.0"); ("info", Obj [("title", Str "X")])]);
    (repeated_key_json, [("openapi", Str "3.0.0"); ("info", Obj [])]) ].

Definition no_components : @Components refs :=
  {| Components_Extensions := None; Schemas := None; Parameters := None;
     Headers := None; RequestBodies := None; Responses := None;
     SecuritySchemes := None; Examples := None; Links := None;
     Callbacks := None |}.

Definition with_schemas (schemas : gmap string (@SchemaRef refs)) : @Components refs :=
  {| Components_Extensions := None; Schemas := Some schemas; Parameters := None;
     Headers := None; RequestBodies := None; Responses := None;
     SecuritySchemes := None; Examples := None; Links := None;
     Callbacks := None |}.

Definition with_paths (entries : gmap string (@PathItem refs)) : @Paths refs :=
  {| Paths_Extensions := None; Paths_m := Some entries |}.

Definition document (title : string) (servers : slice (@openapi3.Server refs))
    (paths : option (@Paths refs)) (components : option (@Components refs))
    (tags : slice Tag) : @T refs :=
  {| T_Extensions := None;
     T_OpenAPI := "3.0.0";
     T_Components := components;
     T_Info := Some {| Info_Title := title; Info_Description := "";
                       Info_Version := "1.0.0" |};
     T_Paths := paths;
     T_Security := None;
     T_Servers := servers;
     T_Tags := tags;
     T_ExternalDocs := None |}.

Definition declared_server : @openapi3.Server refs :=
  {| Server_Extensions := None; Server_URL := "https://declared.example";
     Server_Description := ""; Server_Variables := None |}.

(** What the loader returns on the three OpenAPI 3 documents. *)
Definition loaded_a : @T refs :=
  document "A" (Some [declared_server])
           (Some (with_paths {["/a" := "api-a.yaml#/paths/~1a"]}))
           (Some (with_schemas {["S1" := "api-a.yaml#/components/schemas/S1"]}))
           None.

Definition loaded_bare : @T refs := document "Bare" None None None None.

Definition loaded_schemas : @T refs :=
  document "Schemas" None None
           (Some (with_schemas {["S3" := "schemas.yaml#/components/schemas/S3"]}))
           None.

(** The Swagger 2 document as [openapi2.T] holds it, reduced to what the
    sample needs: the title, the path keys and the definition names. *)
Record swagger2 := {
  swagger2_title : string;
  swagger2_paths : list string;
  swagger2_definitions : list string
}.

Definition swagger2_table : list (bytes * swagger2) :=
  [ (legacy_json,
      {| swagger2_title := "B"; swagger2_paths := ["/b"];
         swagger2_definitions := ["S2"] |}) ].

Definition from_names (prefix : string) (names : list string) : gmap string string :=
  list_to_map ((λ name, (name, prefix +:+ name)) <$> names).

(** The converter: version "3.0.3", a components object always, the
    definitions as schemas, the paths when there are any, no servers when
    the source names no host. *)
Definition to_v3 (doc2 : swagger2) : @T refs :=
  set_OpenAPI
    (document (swagger2_title doc2) None
       (match swagger2_paths doc2 with
        | [] => None
        | paths => Some (with_paths (from_names "legacy.yaml#/paths/" paths))
        end)
       (Some (match swagger2_definitions doc2 with
              | [] => no_components
              | names => with_schemas (from_names "legacy.yaml#/definitions/" names)
              end))
       None)
    "3.0.3".

Definition loader_table : list (bytes * @T refs) :=
  [ (api_a_yaml, loaded_a); (bare_yaml, loaded_bare);
    (schemas_yaml, loaded_schemas) ].

Definition files : list (string * bytes) :=
  [ ("api-a.yaml", api_a_yaml); ("bare.yaml", bare_yaml);
    ("schemas.yaml", schemas_yaml); ("legacy.yaml", legacy_yaml);
    ("notes.yaml", notes_yaml) ].

Definition responses : list (string * Response) :=
  [ ("https://specs.example/api-a.yaml",
      {| StatusCode := 200; Body := Success api_a_yaml |});
    ("https://specs.example/created.yaml",
      {| StatusCode := 201; Body := Success api_a_yaml |});
    ("https://specs.example/gone.yaml",
      {| StatusCode := 404; Body := Success "not found" |});
    ("https://specs.example/cut.yaml",
      {| StatusCode := 200; Body := Failure "unexpected EOF" |}) ].

Definition or_fail {A} (failure : string) (o : option A) : result A :=
  match o with
  | Some a => Success a
  | None => Failure failure
  end.

(** The host of a URL: what stands between [//] and the next slash. *)
Fixpoint upto_slash (s : string) : string :=
  match s with
  | EmptyString => ""
  | String c s => if Ascii.eqb c "/" then "" else String c (upto_slash s)
  end.

Fixpoint host_of (url : string) : string :=
  match url with
  | EmptyString => ""
  | String c rest =>
      match rest with
      | String c' rest' =>
          if Ascii.eqb c "/" && Ascii.eqb c' "/" then upto_slash rest'
          else host_of rest
      | EmptyString => ""
      end
  end.

(** The errors of a request to a host that does not resolve and of reading
    a file that does not exist, as [net/http] and [os] word them. *)
Definition no_such_host (url : string) : string :=
  "Get " +:+ q url +:+ ": dial tcp: lookup " +:+ host_of url +:+ ": no such host".

Definition no_such_file (op path : string) : string :=
  op +:+ " " +:+ path +:+ ": no such file or directory".

(** The environment.  Every write succeeds. *)
Definition libs : @Libs refs :=
  {| any := value;
     Sprintf_v := format;
     yaml_Unmarshal := decode yaml_table "yaml: unmarshal errors";
     json_Unmarshal := decode json_table "invalid character";
     json_Marshal := marshal_map;
     yaml_Marshal := λ doc, Success ("openapi: " +:+ T_OpenAPI doc);
     LoadFromData := λ data, or_fail "failed to unmarshal data" (recorded loader_table data);
     openapi2_T := swagger2;
     openapi2_UnmarshalJSON := λ data,
       or_fail "failed to unmarshal data" (recorded swagger2_table data);
     openapi2conv_ToV3 := λ doc2, Success (to_v3 doc2);
     http_Get := λ path, or_fail (no_such_host path) (recorded responses path);
     os_ReadFile := λ path, or_fail (no_such_file "open" path) (recorded files path);
     os_WriteFile := λ _ _, None |}.

Definition custom_servers : list Server :=
  [ {| URL := "https://custom1.com"; Description := "Custom 1" |};
    {| URL := "https://custom2.com"; Description := "Custom 2" |} ].

Definition merger_for (inputs : list string) : Merger :=
  {| config := {| InputPaths := Some inputs; OutputPath := "merged.yaml";
                  Servers := Some custom_servers |} |}.

(** A configuration whose server list is empty but not nil. *)
Definition no_servers_config : Config :=
  {| InputPaths := Some ["api-a.yaml"]; OutputPath := "merged.yaml";
     Servers := Some [] |}.

(** Three documents as they reach the merger, with tags and path entries. *)
Definition tag (name : string) : Tag :=
  {| Tag_Name := name; Tag_Description := "" |}.

Definition orders : @T refs :=
  document "Orders" None
    (Some (with_paths {["/orders" := "orders#/orders"; "/health" := "orders#/health"]}))
    (Some no_components) (Some [tag "A"; tag "B"]).

Definition billing : @T refs :=
  document "Billing" None
    (Some (with_paths {["/invoices" := "billing#/invoices"; "/health" := "billing#/health"]}))
    (Some no_components) (Some [tag "B"; tag "C"]).

Definition users : @T refs :=
  document "Users" None
    (Some (with_paths {["/users" := "users#/users"]}))
    (Some no_components) None.

End sample.

(** ** Reading a component map of a document

    [doc.Components.Schemas] and its four siblings as a map that is empty
    when the components object or the map itself is nil. *)
Definition component_map {R : Refs} {V} (field : Components → gomap V) (doc : T)
    : gmap string V :=
  match T_Components doc with
  | Some components => default ∅ (field components)
  | None => ∅
  end.

(** The extensions of the paths object, nil when there is no paths object. *)
Definition paths_extensions {R : Refs} (doc : T) : gomap Other :=
  match T_Paths doc with
  | Some paths => Paths_Extensions paths
  | None => None
  end.

(** A field of the components object is merged when an iteration leaves in
    it the incoming entries over the accumulator's. *)
Definition merged_field {R : Refs} {V} (field : Components → gomap V) : Prop :=
  ∀ mc dc, field (merged_components mc dc)
           = Some (default ∅ (field dc) ∪ default ∅ (field mc)).

(** What an iteration of the merge loop leaves alone in the accumulator:
    the document-level fields, and the parts of the components and paths
    objects that are not merged. *)
Definition untouched {R : Refs} (a b : T) : Prop :=
  T_OpenAPI a = T_OpenAPI b ∧ T_Info a = T_Info b ∧
  T_Servers a = T_Servers b ∧ T_Security a = T_Security b ∧
  T_ExternalDocs a = T_ExternalDocs b ∧ T_Extensions a = T_Extensions b ∧
  paths_extensions a = paths_extensions b ∧
  SecuritySchemes <$> T_Components a = SecuritySchemes <$> T_Components b ∧
  Examples <$> T_Components a = Examples <$> T_Components b ∧
  Links <$> T_Components a = Links <$> T_Components b ∧
  Callbacks <$> T_Components a = Callbacks <$> T_Components b ∧
  Components_Extensions <$> T_Components a
  = Components_Extensions <$> T_Components b.

(** ** [MergeFromDirectory]

    The directory walk calls into [path/filepath].  [filepath.Walk] visits
    the root and everything below it in lexical order and hands each path to
    the callback with either its file information (here: whether it is a
    directory) or the error met on the way; it stops at the first error the
    callback returns.  The callback of [MergeFromDirectory] returns nothing
    but such errors, so a walk is given by the list of its visits. *)
Class Files := {
  (** the visits of [filepath.Walk(root, ...)]: the path, and whether it is
      a directory, or the error *)
  filepath_Walk : string → list (string * result bool);
  (** [filepath.Match(pattern, name)] *)
  filepath_Match : string → string → result bool;
  (** [filepath.Base(path)] *)
  filepath_Base : string → string;
  (** [os.Stat(path)]: whether the path is a directory, or the error *)
  os_Stat : string → result bool
}.

Section directory.
Context {R : Refs} {L : Libs} {F : Files}.

(** The callback, lines 319-334, on one visit; [swaggerFiles] is the slice
    filled so far. *)
Definition visit (pattern : string) (swaggerFiles : list string)
    (path : string) (info : result bool) : result (list string) :=
  match info with
  | Failure err => Failure err
  | Success isDir =>
      if isDir then Success swaggerFiles
      else
        match filepath_Match pattern (filepath_Base path) with
        | Failure err => Failure err
        | Success matched =>
            Success (if matched then swaggerFiles ++ [path] else swaggerFiles)
        end
  end.

(** The walk with this callback: it stops at the first error. *)
Fixpoint walk (pattern : string) (visits : list (string * result bool))
    (swaggerFiles : list string) : result (list string) :=
  match visits with
  | [] => Success swaggerFiles
  | (path, info) :: visits =>
      match visit pattern swaggerFiles path info with
      | Failure err => Failure err
      | Success swaggerFiles => walk pattern visits swaggerFiles
      end
  end.

(** [m.config.InputPaths = swaggerFiles] *)
Definition set_InputPaths (m : Merger) (swaggerFiles : list string) : Merger :=
  {| config := {| InputPaths := Some swaggerFiles;
                  OutputPath := OutputPath (config m);
                  Servers := Servers (config m) |} |}.

(** The run, and the merger as the call leaves it. *)
Definition MergeFromDirectory (m : Merger) (inputDir pattern : string)
    : run * Merger :=
  match walk pattern (filepath_Walk inputDir) [] with
  | Failure err =>
      ({| returned := Err ("error finding files: " +:+ err); writes := [] |}, m)
  | Success [] =>
      ({| returned := Err ("no swagger files found in " +:+ inputDir
                           +:+ " with pattern " +:+ pattern);
          writes := [] |}, m)
  | Success swaggerFiles =>
      (Merge (set_InputPaths m swaggerFiles), set_InputPaths m swaggerFiles)
  end.

(** A visit selects its path when the path is a file whose base name
    matches the pattern. *)
Definition selects (pattern : string) (v : string * result bool) : bool :=
  match v.2 with
  | Success false =>
      match filepath_Match pattern (filepath_Base v.1) with
      | Success matched => matched
      | Failure _ => false
      end
  | _ => false
  end.

(** The error a visit raises, if any: the walk's own, or the pattern's. *)
Definition visit_error (pattern : string) (v : string * result bool) : option string :=
  match v.2 with
  | Failure err => Some err
  | Success true => None
  | Success false =>
      match filepath_Match pattern (filepath_Base v.1) with
      | Failure err => Some err
      | Success _ => None
      end
  end.

End directory.

(** ** The server list of the command line
    ([cmd/swagger-merger/main.go], lines 50-90)

    The string functions are those of Go's [strings] package, on byte
    strings, for the one-byte separators the program passes. *)
Module strings.

(** [strings.Split(s, sep)]: the pieces between the separators, one more
    than there are separators; the empty string gives one empty piece. *)
Fixpoint Split (s : string) (sep : ascii) : list string :=
  match s with
  | EmptyString => [""]
  | String c rest =>
      if Ascii.eqb c sep then "" :: Split rest sep
      else
        match Split rest sep with
        | piece :: pieces => String c piece :: pieces
        | [] => [String c ""]
        end
  end.

(** [strings.LastIndex(s, sep)]: the index of the last occurrence, or -1. *)
Fixpoint LastIndex (s : string) (sep : ascii) : Z :=
  match s with
  | EmptyString => -1
  | String c rest =>
      let i := LastIndex rest sep in
      if (0 <=? i)%Z then (i + 1)%Z
      else if Ascii.eqb c sep then 0%Z else (-1)%Z
  end.

(** [strings.HasSuffix(s, suffix)] *)
Definition HasSuffix (s suffix : string) : bool :=
  (String.length suffix <=? String.length s) &&
  String.eqb (String.substring (String.length s - String.length suffix)
                               (String.length suffix) s) suffix.

Fixpoint of_bytes (l : list nat) : string :=
  match l with
  | [] => ""
  | n :: l => String (Ascii.ascii_of_nat n) (of_bytes l)
  end.

Fixpoint rev (s : string) : string :=
  match s with
  | EmptyString => ""
  | String c rest => rev rest +:+ String c ""
  end.

(** The UTF-8 encodings of the runes for which [unicode.IsSpace] holds:
    tab to carriage return, space, U+0085, U+00A0, U+1680, U+2000 to
    U+200A, U+2028, U+2029, U+202F, U+205F and U+3000. *)
Definition White_Space : list string :=
  of_bytes <$>
    [ [9]; [10]; [11]; [12]; [13]; [32]; [194; 133]; [194; 160];
      [225; 154; 128];
      [226; 128; 128]; [226; 128; 129]; [226; 128; 130]; [226; 128; 131];
      [226; 128; 132]; [226; 128; 133]; [226; 128; 134]; [226; 128; 135];
      [226; 128; 136]; [226; 128; 137]; [226; 128; 138];
      [226; 128; 168]; [226; 128; 169]; [226; 128; 175];
      [226; 129; 159]; [227; 128; 128] ].

(** [s] without the prefix, when it has it. *)
Fixpoint without_prefix (prefix s : string) : option string :=
  match prefix, s with
  | EmptyString, _ => Some s
  | String a prefix, String b s =>
      if Ascii.eqb a b then without_prefix prefix s else None
  | String _ _, EmptyString => None
  end.

(** [s] without one leading space rune, when it starts with one. *)
Fixpoint without_space (spaces : list string) (s : string) : option string :=
  match spaces with
  | [] => None
  | space :: spaces =>
      match without_prefix space s with
      | Some rest => Some rest
      | None => without_space spaces s
      end
  end.

(** Leading space runes removed, at most [n] of them. *)
Fixpoint trim_left (spaces : list string) (n : nat) (s : string) : string :=
  match n with
  | 0 => s
  | S n =>
      match without_space spaces s with
      | Some rest => trim_left spaces n rest
      | None => s
      end
  end.

Definition TrimLeftSpace (s : string) : string :=
  trim_left White_Space (String.length s) s.

(** Trailing space runes are leading ones of the reversed string, their
    encodings read backwards. *)
Definition TrimRightSpace (s : string) : string :=
  rev (trim_left (rev <$> White_Space) (String.length s) (rev s)).

(** [strings.TrimSpace(s)]: leading and trailing white space removed. *)
Definition TrimSpace (s : string) : string := TrimRightSpace (TrimLeftSpace s).

End strings.

(** The body of the loop, lines 60-83, on a trimmed, non-empty entry. *)
Definition server_entry (server : string) : Server :=
  let lastColonIndex := strings.LastIndex server ":" in
  if (0 <? lastColonIndex)%Z
     && (lastColonIndex <? Z.of_nat (String.length server) - 1)%Z then
    let beforeColon := String.substring 0 (Z.to_nat lastColonIndex) server in
    if negb (strings.HasSuffix beforeColon "//") then
      {| URL := strings.TrimSpace
                  (String.substring 0 (Z.to_nat lastColonIndex) server);
         Description :=
           strings.TrimSpace
             (String.substring (Z.to_nat lastColonIndex + 1)
                (String.length server - (Z.to_nat lastColonIndex + 1)) server) |}
    else {| URL := server; Description := "API Server" |}
  else {| URL := server; Description := "API Server" |}.

(** The loop over [serverList], lines 54-84; [serverConfigs] is the slice
    filled so far. *)
Fixpoint server_loop (serverList : list string) (serverConfigs : slice Server)
    : slice Server :=
  match serverList with
  | [] => serverConfigs
  | server :: serverList =>
      let server := strings.TrimSpace server in
      if bool_decide (server = "") then server_loop serverList serverConfigs
      else server_loop serverList (append serverConfigs [server_entry server])
  end.

(** Lines 51-90: the server configuration [main] hands to [merger.New],
    from the value of the [--servers] flag. *)
Definition server_configs (servers : string) : slice Server :=
  let serverConfigs :=
    if bool_decide (servers ≠ "")
    then server_loop (strings.Split servers ",") None
    else None in
  if bool_decide (len serverConfigs = 0) then DefaultServers else serverConfigs.

(** ** The input list of the command line
    ([cmd/swagger-merger/main.go], lines 102-169)

    Warnings are logged and the scan goes on; only the collected paths are
    modelled. *)
Section inputs.
Context {F : Files}.

(** Lines 137-147: the name matches some pattern; a pattern the match
    rejects is passed over. *)
Fixpoint matches_any (patterns : list string) (name : string) : bool :=
  match patterns with
  | [] => false
  | pattern :: patterns =>
      match filepath_Match pattern name with
      | Failure _ => matches_any patterns name
      | Success patternMatched =>
          if patternMatched then true else matches_any patterns name
      end
  end.

(** The walk of a directory input, lines 130-157: the callback appends to
    [allInputPaths] as it goes and stops the walk at the first error, which
    is logged; what was appended stays. *)
Fixpoint scan (patterns : list string) (visits : list (string * result bool))
    (allInputPaths : list string) : list string :=
  match visits with
  | [] => allInputPaths
  | (path, info) :: visits =>
      match info with
      | Failure _ => allInputPaths
      | Success isDir =>
          if isDir then scan patterns visits allInputPaths
          else if matches_any patterns (filepath_Base path)
               then scan patterns visits (allInputPaths ++ [path])
               else scan patterns visits allInputPaths
      end
  end.

(** The loop over the inputs, lines 111-169. *)
Fixpoint collect_inputs (patterns : list string) (inputPathList : list string)
    (allInputPaths : list string) : list string :=
  match inputPathList with
  | [] => allInputPaths
  | inputPath :: inputPathList =>
      let inputPath := strings.TrimSpace inputPath in
      if bool_decide (inputPath = "")
      then collect_inputs patterns inputPathList allInputPaths
      else
        match os_Stat inputPath with
        | Failure _ => collect_inputs patterns inputPathList allInputPaths
        | Success isDir =>
            if isDir
            then collect_inputs patterns inputPathList
                   (scan patterns (filepath_Walk inputPath) allInputPaths)
            else collect_inputs patterns inputPathList
                   (allInputPaths ++ [inputPath])
        end
  end.

(** Lines 102-109 and the loop: the input paths [main] hands to the merger,
    from the values of the [--input] and [--pattern] flags. *)
Definition input_paths (inputPaths pattern : string) : list string :=
  collect_inputs (strings.TrimSpace <$> strings.Split pattern ",")
                 (strings.Split inputPaths ",") [].

End inputs.

(** Two more sample documents, with schemas and security schemes. *)
Module sample_components.

Definition components_of (schemas : gmap string (@SchemaRef sample.refs))
    (security : gmap string (@Other sample.refs)) : @Components sample.refs :=
  {| Components_Extensions := None; Schemas := Some schemas; Parameters := None;
     Headers := None; RequestBodies := None; Responses := None;
     SecuritySchemes := Some security; Examples := None; Links := None;
     Callbacks := None |}.

Definition catalog : @T sample.refs :=
  sample.document "Catalog" None
    (Some (sample.with_paths {["/items" := "catalog#/items"]}))
    (Some (components_of {["Item" := "catalog#Item"; "Error" := "catalog#Error"]}
                         {["apiKey" := "catalog#apiKey"]}))
    (Some [sample.tag "items"]).

Definition payments : @T sample.refs :=
  sample.document "Payments" None None
    (Some (components_of {["Charge" := "payments#Charge"; "Error" := "payments#Error"]}
                         {["oauth" := "payments#oauth"]}))
    None.

End sample_components.

(** A recorded directory tree for the examples of the directory walk: the
    sample documents under [specs], and a tree [locked] with a directory
    that cannot be read. *)
Module sample_dir.

Definition trees : list (string * list (string * result bool)) :=
  [ ("specs",
      [ ("specs", Success true);
        ("specs/api-a.yaml", Success false);
        ("specs/archive", Success true);
        ("specs/archive/legacy.yaml", Success false);
        ("specs/notes.txt", Success false);
        ("specs/schemas.yaml", Success false) ]);
    ("locked",
      [ ("locked", Success true);
        ("locked/a.yaml", Success false);
        ("locked/private", Success true);
        ("locked/private", Failure "open locked/private: permission denied") ]) ].

(** The last element of a clean slash-separated path. *)
Definition base (path : string) : string :=
  let i := strings.LastIndex path "/" in
  String.substring (Z.to_nat (i + 1)) (String.length path) path.

(** [filepath.Match] on the patterns of the examples: a star followed by a
    literal suffix, a literal name, and the malformed pattern "[". *)
Definition match_pattern (pattern name : string) : result bool :=
  match pattern with
  | String "*" suffix => Success (strings.HasSuffix name suffix)
  | String "[" EmptyString => Failure "syntax error in pattern"
  | _ => Success (String.eqb pattern name)
  end.

Definition files : list (string * bytes) :=
  [ ("specs/api-a.yaml", sample.api_a_yaml);
    ("specs/archive/legacy.yaml", sample.legacy_yaml);
    ("specs/schemas.yaml", sample.schemas_yaml);
    ("locked/a.yaml", sample.api_a_yaml) ].

Definition files_of : Files :=
  {| filepath_Walk := λ root,
       default [(root, Failure (sample.no_such_file "lstat" root))]
               (sample.recorded trees root);
     filepath_Match := match_pattern;
     filepath_Base := base;
     os_Stat := λ path,
       default (Failure (sample.no_such_file "stat" path))
               (sample.recorded (mjoin trees.*2) path) |}.

(** The environment of [sample], reading files from this tree. *)
Definition libs : @Libs sample.refs :=
  {| any := sample.value;
     Sprintf_v := sample.format;
     yaml_Unmarshal := @yaml_Unmarshal _ sample.libs;
     json_Unmarshal := @json_Unmarshal _ sample.libs;
     json_Marshal := sample.marshal_map;
     yaml_Marshal := @yaml_Marshal _ sample.libs;
     LoadFromData := @LoadFromData _ sample.libs;
     openapi2_T := sample.swagger2;
     openapi2_UnmarshalJSON := @openapi2_UnmarshalJSON _ sample.libs;
     openapi2conv_ToV3 := @openapi2conv_ToV3 _ sample.libs;
     http_Get := @http_Get _ sample.libs;
     os_ReadFile := λ path,
       sample.or_fail (sample.no_such_file "open" path)
                      (sample.recorded files path);
     os_WriteFile := λ _ _, None |}.

(** A merger with an output path and no input yet. *)
Definition merger : Merger :=
  {| config := {| InputPaths := None; OutputPath := "merged.yaml";
                  Servers := Some sample.custom_servers |} |}.

End sample_dir.

(** Two OpenAPI 3 documents with paths and tags and no [components] key,
    for which the loader leaves [T.Components] nil, and the environment that
    reads them. *)
Module sample_plain.

Definition pets_yaml : bytes :=
"openapi: 3.0.0
info:
  title: Pets
  version: 1.0.0
paths:
  /pets: {}
tags:
  - name: A
  - name: B
".

Definition stores_yaml : bytes :=
"openapi: 3.0.0
info:
  title: Stores
  version: 1.0.0
paths:
  /stores: {}
tags:
  - name: B
  - name: C
".

Definition named (name : string) : sample.value :=
  sample.Obj [("name", sample.Str name)].

Definition yaml_table : list (bytes * list (string * sample.value)) :=
  [ (pets_yaml,
      [("openapi", sample.Str "3.0.0"); ("info", sample.info_of "Pets");
       ("paths", sample.Obj [("/pets", sample.Obj [])]);
       ("tags", sample.Arr [named "A"; named "B"])]);
    (stores_yaml,
      [("openapi", sample.Str "3.0.0"); ("info", sample.info_of "Stores");
       ("paths", sample.Obj [("/stores", sample.Obj [])]);
       ("tags", sample.Arr [named "B"; named "C"])]) ].

(** What the loader returns on them. *)
Definition loaded_pets : @T sample.refs :=
  sample.document "Pets" None
    (Some (sample.with_paths {["/pets" := "pets.yaml#/paths/~1pets"]}))
    None (Some [sample.tag "A"; sample.tag "B"]).

Definition loaded_stores : @T sample.refs :=
  sample.document "Stores" None
    (Some (sample.with_paths {["/stores" := "stores.yaml#/paths/~1stores"]}))
    None (Some [sample.tag "B"; sample.tag "C"]).

Definition loader_table : list (bytes * @T sample.refs) :=
  [ (pets_yaml, loaded_pets); (stores_yaml, loaded_stores) ].

Definition files : list (string * bytes) :=
  [ ("pets.yaml", pets_yaml); ("stores.yaml", stores_yaml) ].

Definition libs : @Libs sample.refs :=
  {| any := sample.value;
     Sprintf_v := sample.format;
     yaml_Unmarshal := sample.decode yaml_table "yaml: unmarshal errors";
     json_Unmarshal := sample.decode [] "invalid character";
     json_Marshal := sample.marshal_map;
     yaml_Marshal := @yaml_Marshal _ sample.libs;
     LoadFromData := λ data,
       sample.or_fail "failed to unmarshal data"
                      (sample.recorded loader_table data);
     openapi2_T := sample.swagger2;
     openapi2_UnmarshalJSON := @openapi2_UnmarshalJSON _ sample.libs;
     openapi2conv_ToV3 := @openapi2conv_ToV3 _ sample.libs;
     http_Get := @http_Get _ sample.libs;
     os_ReadFile := λ path,
       sample.or_fail (sample.no_such_file "open" path)
                      (sample.recorded files path);
     os_WriteFile := λ _ _, None |}.

End sample_plain.
(** ** Facts about the Go map and slice operations *)

Lemma range_assign_Some {V} (g s : gmap string V) :
  range_assign (Some g) s = Ok (Some (s ∪ g)).
Proof.
  unfold range_assign.
  apply (map_fold_weak_ind (λ r m, r = Ok (Some (m ∪ g)))).
  - by rewrite (left_id_L ∅ (∪)).
  - intros i x m r _ ->. simpl. by rewrite insert_union_l.
Qed.

Lemma range_assign_nil {V} (s : gmap string V) :
  s ≠ ∅ → range_assign None s = Panic.
Proof.
  unfold range_assign.
  induction s as [|i x m Hi Hfold IH] using map_first_key_ind; [done|].
  intros _. rewrite map_fold_insert_first_key by done.
  destruct (decide (m = ∅)) as [->|Hm].
  - by rewrite map_fold_empty.
  - by rewrite IH.
Qed.

Lemma elems_append {A} (s : slice A) (xs : list A) :
  elems (append s xs) = elems s ++ xs.
Proof. destruct xs; simpl; [by rewrite app_nil_r|done]. Qed.

(** ** Facts about [last_wins] *)

Section last_wins.
Context {V : Type}.
Implicit Types (m acc : gmap string V) (ms : list (gmap string V)).

Lemma foldl_overlay_dom acc ms :
  dom (foldl overlay acc ms) = dom acc ∪ ⋃ (dom <$> ms).
Proof.
  revert acc. induction ms as [|m ms IH]; intros acc.
  - by rewrite fmap_nil, union_list_nil, (right_id_L ∅ (∪)).
  - rewrite fmap_cons, union_list_cons. cbn [foldl]. rewrite IH. unfold overlay.
    by rewrite dom_union_L, (comm_L (∪) (dom m)), (assoc_L (∪)).
Qed.

Lemma last_wins_dom ms : dom (last_wins ms) = ⋃ (dom <$> ms).
Proof.
  unfold last_wins. by rewrite foldl_overlay_dom, dom_empty_L, (left_id_L ∅ (∪)).
Qed.

Lemma last_wins_cons m ms : last_wins (m :: ms) = foldl overlay m ms.
Proof.
  unfold last_wins. cbn [foldl].
  replace (overlay ∅ m) with m; [done|].
  unfold overlay. by rewrite (right_id_L ∅ (∪)).
Qed.

Lemma last_wins_snoc ms m : last_wins (ms ++ [m]) = m ∪ last_wins ms.
Proof. unfold last_wins. by rewrite foldl_snoc. Qed.

Lemma last_wins_lookup ms i m k v :
  ms !! i = Some m → m !! k = Some v →
  (∀ j m', i < j → ms !! j = Some m' → m' !! k = None) →
  last_wins ms !! k = Some v.
Proof.
  revert i m. induction ms as [|x ms IH] using rev_ind; intros i m Hi Hk Hlater.
  - done.
  - rewrite last_wins_snoc.
    destruct (decide (i = length ms)) as [->|Hne].
    + rewrite list_lookup_middle in Hi by done. simplify_eq.
      by apply lookup_union_Some_l.
    + assert (i < length ms) as Hlt.
      { apply lookup_lt_Some in Hi. rewrite length_app in Hi. simpl in Hi. lia. }
      rewrite lookup_app_l in Hi by done.
      assert (x !! k = None) as Hx.
      { apply (Hlater (length ms)); [done|]. by rewrite list_lookup_middle. }
      rewrite lookup_union_r by done.
      apply (IH i m); [done..|].
      intros j m' Hj Hm'. apply (Hlater j); [done|].
      rewrite lookup_app_l; [done|]. by eapply lookup_lt_Some.
Qed.

Lemma last_wins_size_disjoint ms :
  pairwise_disjoint ms → size (last_wins ms) = sum_list (size <$> ms).
Proof.
  induction ms as [|x ms IH] using rev_ind; intros Hdisj.
  - unfold last_wins. simpl. by rewrite map_size_empty.
  - rewrite last_wins_snoc, fmap_app, sum_list_with_app. simpl.
    rewrite map_size_disj_union.
    + rewrite IH; [lia|].
      intros i j mi mj Hij Hi Hj. apply (Hdisj i j); [done|..].
      * rewrite lookup_app_l; [done|]. by eapply lookup_lt_Some.
      * rewrite lookup_app_l; [done|]. by eapply lookup_lt_Some.
    + apply map_disjoint_dom. rewrite last_wins_dom.
      intros k Hk (X & HX & HkX)%elem_of_union_list.
      apply list_elem_of_fmap in HX as (m & -> & Hm).
      apply list_elem_of_lookup in Hm as [i Hi].
      assert (i < length ms) by by eapply lookup_lt_Some.
      assert (dom x ## dom m) as Hxm.
      { apply (Hdisj (length ms) i); [lia|..].
        - by rewrite list_lookup_middle.
        - by rewrite lookup_app_l. }
      by apply (Hxm k).
Qed.

End last_wins.

(** ** What one loop iteration and the whole loop compute *)

Section merge_facts.
Context {R : Refs}.
Implicit Types (merged doc : T) (docs rest : list T).

Lemma Paths_Map_fold_Set (p : Paths) (m : gmap string PathItem) :
  Paths_Map (Some (map_fold (λ path item p, Paths_Set p path item) p m))
  = m ∪ Paths_Map (Some p).
Proof.
  apply (map_fold_weak_ind (λ r m, Paths_Map (Some r) = m ∪ Paths_Map (Some p))).
  - by rewrite (left_id_L ∅ (∪)).
  - intros i x m' r _ IH. simpl in *. by rewrite IH, insert_union_l.
Qed.

Lemma merge_paths_path_map merged doc :
  path_map (merge_paths merged doc) = path_map doc ∪ path_map merged.
Proof.
  unfold path_map, merge_paths. destruct (T_Paths doc) as [p|] eqn:Hp.
  - cbn [set_Paths T_Paths]. rewrite Paths_Map_fold_Set.
    by destruct (T_Paths merged).
  - simpl. by rewrite (left_id_L ∅ (∪)).
Qed.

Lemma merge_map_init {V} (a b : gomap V) :
  merge_map (init_map a) b = Ok (Some (default ∅ b ∪ default ∅ a)).
Proof.
  destruct a, b; simpl; rewrite ?range_assign_Some, ?(left_id_L ∅ (∪)); done.
Qed.

Lemma merge_components_init mc dc :
  merge_components (init_components mc) dc = Ok (merged_components mc dc).
Proof.
  unfold merge_components. cbn [init_components Schemas Parameters Headers
    RequestBodies Responses Components_Extensions SecuritySchemes Examples
    Links Callbacks].
  by rewrite !merge_map_init.
Qed.

Lemma merge_paths_components merged doc :
  T_Components (merge_paths merged doc) = T_Components merged.
Proof. unfold merge_paths. by destruct (T_Paths doc). Qed.

Lemma merge_paths_tags merged doc :
  T_Tags (merge_paths merged doc) = T_Tags merged.
Proof. unfold merge_paths. by destruct (T_Paths doc). Qed.

(** An iteration panics exactly when the accumulator or the incoming
    document has no components object; otherwise it returns. *)
Lemma merge_doc_eq merged doc :
  merge_doc merged doc =
  match T_Components merged, T_Components doc with
  | Some mc, Some dc =>
      Ok (merge_tags (set_Components (merge_paths merged doc)
                                     (Some (merged_components mc dc))) doc)
  | _, _ => Panic
  end.
Proof.
  unfold merge_doc. rewrite merge_paths_components.
  destruct (T_Components merged) as [mc|]; [|done].
  destruct (T_Components doc) as [dc|]; [|done].
  by rewrite merge_components_init.
Qed.

Lemma merge_doc_Ok merged doc merged' :
  merge_doc merged doc = Ok merged' →
  has_components merged ∧ has_components doc ∧ has_components merged' ∧
  path_map merged' = path_map doc ∪ path_map merged ∧
  T_Tags merged' = match T_Tags doc with
                   | None => T_Tags merged
                   | Some tags => append (T_Tags merged) tags
                   end.
Proof.
  rewrite merge_doc_eq. unfold has_components.
  destruct (T_Components merged) as [mc|]; [|done].
  destruct (T_Components doc) as [dc|]; [|done].
  intros [= <-]. split_and!; [by eexists..| | |].
  - unfold merge_tags. destruct (T_Tags doc); by eexists.
  - unfold merge_tags. destruct (T_Tags doc); apply merge_paths_path_map.
  - unfold merge_tags. destruct (T_Tags doc); cbn; by rewrite merge_paths_tags.
Qed.

Lemma merge_doc_returns merged doc :
  has_components merged → has_components doc →
  ∃ merged', merge_doc merged doc = Ok merged'.
Proof.
  intros [mc Hmc] [dc Hdc]. rewrite merge_doc_eq, Hmc, Hdc. by eexists.
Qed.

Lemma merge_doc_tags_elems merged doc merged' :
  merge_doc merged doc = Ok merged' →
  elems (T_Tags merged') = elems (T_Tags merged) ++ elems (T_Tags doc).
Proof.
  intros (_ & _ & _ & _ & ->)%merge_doc_Ok.
  destruct (T_Tags doc) as [tags|]; simpl.
  - apply elems_append.
  - by rewrite app_nil_r.
Qed.

Lemma merge_loop_path_map merged rest merged' :
  merge_loop merged rest = Ok merged' →
  path_map merged' = foldl overlay (path_map merged) (path_map <$> rest).
Proof.
  revert merged. induction rest as [|doc rest IH]; intros merged; simpl.
  - by intros [= <-].
  - destruct (merge_doc merged doc) as [m| |] eqn:Hdoc; [|done..]. simpl.
    intros Hloop. rewrite (IH _ Hloop).
    apply merge_doc_Ok in Hdoc as (_ & _ & _ & -> & _). done.
Qed.

Lemma merge_loop_tags merged rest merged' :
  merge_loop merged rest = Ok merged' →
  elems (T_Tags merged')
  = elems (T_Tags merged) ++ mjoin ((λ doc, elems (T_Tags doc)) <$> rest).
Proof.
  revert merged. induction rest as [|doc rest IH]; intros merged; simpl.
  - intros [= <-]. by rewrite app_nil_r.
  - destruct (merge_doc merged doc) as [m| |] eqn:Hdoc; [|done..]. simpl.
    intros Hloop. rewrite (IH _ Hloop), (merge_doc_tags_elems _ _ _ Hdoc).
    by rewrite (assoc_L (++)).
Qed.

Lemma merge_loop_returns merged rest :
  has_components merged → Forall has_components rest →
  ∃ merged', merge_loop merged rest = Ok merged'.
Proof.
  revert merged. induction rest as [|doc rest IH]; intros merged Hm Hrest; simpl.
  - by eexists.
  - apply Forall_cons in Hrest as [Hdoc Hrest].
    destruct (merge_doc_returns merged doc Hm Hdoc) as [m Hdocm].
    rewrite Hdocm. simpl. apply IH; [|done].
    by apply merge_doc_Ok in Hdocm as (_ & _ & ? & _).
Qed.

Lemma merge_loop_Ok_components merged rest merged' :
  rest ≠ [] → merge_loop merged rest = Ok merged' →
  has_components merged ∧ Forall has_components rest.
Proof.
  revert merged. induction rest as [|doc rest IH]; intros merged Hne; [done|].
  simpl. destruct (merge_doc merged doc) as [m| |] eqn:Hdoc; [|done..]. simpl.
  intros Hloop. apply merge_doc_Ok in Hdoc as (Hm & Hd & Hm' & _).
  split; [done|]. apply Forall_cons. split; [done|].
  destruct rest as [|doc' rest]; [constructor|].
  by apply (IH m).
Qed.

(** When the merge returns a document: the input is a single document, or
    every document carries a components object.  With two or more documents
    and a missing components object the loop dereferences nil. *)
Lemma mergeOpenAPI3_returns docs :
  docs ≠ [] →
  (∃ merged, mergeOpenAPI3 docs = Ok merged)
  ↔ length docs = 1 ∨ Forall has_components docs.
Proof.
  destruct docs as [|d rest]; [done|]. intros _. simpl. split.
  - intros [merged Hm]. destruct rest as [|d' rest]; [by left|right].
    apply merge_loop_Ok_components in Hm as [? ?]; [|done].
    by apply Forall_cons.
  - intros [Hlen|Hall].
    + destruct rest; [|done]. by eexists.
    + apply Forall_cons in Hall as [? ?]. by apply merge_loop_returns.
Qed.

Lemma mergeOpenAPI3_path_map docs merged :
  mergeOpenAPI3 docs = Ok merged →
  path_map merged = last_wins (path_map <$> docs).
Proof.
  destruct docs as [|d rest]; [done|]. cbn [mergeOpenAPI3]. intros Hm.
  by rewrite (merge_loop_path_map _ _ _ Hm), fmap_cons, last_wins_cons.
Qed.

End merge_facts.

(** ** The merge: empty input, single input, tags, paths *)

Section merge_claims.
Context {R : Refs}.
Implicit Types (merged doc : T) (docs rest : list T).

Lemma merge_doc_not_Err merged doc msg : merge_doc merged doc ≠ Err msg.
Proof.
  rewrite merge_doc_eq.
  by destruct (T_Components merged), (T_Components doc).
Qed.

Lemma merge_loop_not_Err merged rest msg : merge_loop merged rest ≠ Err msg.
Proof.
  revert merged. induction rest as [|doc rest IH]; intros merged; [done|].
  simpl. destruct (merge_doc merged doc) as [m|e|] eqn:Hdoc; simpl.
  - apply IH.
  - by apply merge_doc_not_Err in Hdoc.
  - done.
Qed.

(** C5. [mergeOpenAPI3] on the empty sequence fails with the empty-input
    error ("no documents to merge") and so produces no document; on a
    sequence with at least one document it never returns an error, that one
    included. *)
Theorem mergeOpenAPI3_empty_input :
  mergeOpenAPI3 (@nil T) = Err "no documents to merge" ∧
  ∀ doc rest msg, mergeOpenAPI3 (doc :: rest) ≠ Err msg.
Proof.
  split; [done|]. intros doc rest msg. apply merge_loop_not_Err.
Qed.

(** C6. Merging a single document returns that document, unchanged: the
    loop over the second and later documents has nothing to run on. *)
Theorem mergeOpenAPI3_single doc : mergeOpenAPI3 [doc] = Ok doc.
Proof. reflexivity. Qed.

Lemma mergeOpenAPI3_tags_elems docs merged :
  mergeOpenAPI3 docs = Ok merged →
  elems (T_Tags merged) = mjoin ((λ doc, elems (T_Tags doc)) <$> docs).
Proof.
  destruct docs as [|d rest]; [done|]. cbn [mergeOpenAPI3]. intros Hm.
  by rewrite (merge_loop_tags _ _ _ Hm).
Qed.

(** X27. Two documents whose tag sequences are [A,B] and [B,C] merge into a
    document whose tag sequence is [A,B,B,C]: whenever the merge returns a
    document its tags are these four, and it does return one when both
    documents carry a components object.  For any number of documents the
    merged tags are the documents' tags concatenated in input order, nothing
    dropped and nothing reordered. *)
Theorem mergeOpenAPI3_tags_concat (d1 d2 : T) (A B C : Tag) :
  T_Tags d1 = Some [A; B] →
  T_Tags d2 = Some [B; C] →
  (∀ merged, mergeOpenAPI3 [d1; d2] = Ok merged →
             T_Tags merged = Some [A; B; B; C]) ∧
  (has_components d1 → has_components d2 →
   ∃ merged, mergeOpenAPI3 [d1; d2] = Ok merged ∧
             T_Tags merged = Some [A; B; B; C]) ∧
  (∀ docs merged,
     mergeOpenAPI3 docs = Ok merged →
     elems (T_Tags merged) = mjoin ((λ doc, elems (T_Tags doc)) <$> docs)).
Proof.
  intros H1 H2.
  assert (∀ merged, mergeOpenAPI3 [d1; d2] = Ok merged →
                    T_Tags merged = Some [A; B; B; C]) as Htags.
  { intros merged Hm. cbn [mergeOpenAPI3 merge_loop] in Hm.
    destruct (merge_doc d1 d2) as [m| |] eqn:Hdoc; [|done..].
    simpl in Hm. injection Hm as <-.
    apply merge_doc_Ok in Hdoc as (_ & _ & _ & _ & ->).
    by rewrite H1, H2. }
  split_and!; [done| |apply mergeOpenAPI3_tags_elems].
  intros Hc1 Hc2.
  destruct (proj2 (mergeOpenAPI3_returns [d1; d2] ltac:(done))) as [merged Hm].
  { right. by repeat constructor. }
  exists merged. split; [done|]. by apply Htags.
Qed.

(** X26. For a non-empty list of documents on which the merge returns, the
    path entries of the merged document are exactly the union of the
    inputs' path keys; their number is the number of distinct keys, and the
    sum of the inputs' sizes when the inputs share no key; under a key the
    merged document holds the entry of the last document that declares the
    key.  This holds of every document the merge returns, and it returns
    one when the list is a single document or every document carries a
    components object. *)
Theorem mergeOpenAPI3_paths docs :
  docs ≠ [] →
  (length docs = 1 ∨ Forall has_components docs →
   ∃ merged, mergeOpenAPI3 docs = Ok merged) ∧
  ∀ merged,
    mergeOpenAPI3 docs = Ok merged →
    dom (path_map merged)
      =@{gset string} ⋃ ((λ doc, dom (path_map doc)) <$> docs) ∧
    size (path_map merged)
      = size (⋃ ((λ doc, dom (path_map doc)) <$> docs) : gset string) ∧
    (pairwise_disjoint (path_map <$> docs) →
     size (path_map merged) = sum_list ((λ doc, size (path_map doc)) <$> docs)) ∧
    (∀ i doc key item,
       docs !! i = Some doc →
       path_map doc !! key = Some item →
       (∀ j doc', i < j → docs !! j = Some doc' → path_map doc' !! key = None) →
       path_map merged !! key = Some item).
Proof.
  intros Hne. split; [by apply mergeOpenAPI3_returns|].
  intros merged Hm. rewrite (mergeOpenAPI3_path_map _ _ Hm).
  assert (dom (last_wins (path_map <$> docs))
          =@{gset string} ⋃ ((λ doc, dom (path_map doc)) <$> docs)) as Hdom.
  { by rewrite last_wins_dom, <-list_fmap_compose. }
  split_and!.
  - done.
  - by rewrite <-Hdom, size_dom.
  - intros Hdisj. by rewrite last_wins_size_disjoint, <-list_fmap_compose.
  - intros i doc key item Hi Hkey Hlater.
    apply (last_wins_lookup _ i (path_map doc)); [|done|].
    + by rewrite list_lookup_fmap, Hi.
    + intros j m' Hj Hm'. rewrite list_lookup_fmap in Hm'.
      destruct (docs !! j) as [doc'|] eqn:Hdoc'; [|done].
      simpl in Hm'. injection Hm' as <-. by apply (Hlater j).
Qed.

End merge_claims.

(** The tag theorem on the sample documents [orders] (tags A, B) and
    [billing] (tags B, C). *)
Lemma mergeOpenAPI3_tags_concat_witness :
  ∃ merged,
    mergeOpenAPI3 [sample.orders; sample.billing] = Ok merged ∧
    T_Tags merged
    = Some [sample.tag "A"; sample.tag "B"; sample.tag "B"; sample.tag "C"].
Proof.
  apply (mergeOpenAPI3_tags_concat sample.orders sample.billing
           (sample.tag "A") (sample.tag "B") (sample.tag "C")).
  - reflexivity.
  - reflexivity.
  - eexists. reflexivity.
  - eexists. reflexivity.
Defined.

(** The path theorem on [orders], [billing] and [users]: four distinct keys
    out of five entries, and [/health], declared by the first two, holds the
    entry of [billing]. *)
Lemma mergeOpenAPI3_paths_witness :
  ∃ merged,
    mergeOpenAPI3 [sample.orders; sample.billing; sample.users] = Ok merged ∧
    size (path_map merged) = 4 ∧
    path_map merged !! "/health" = Some "billing#/health".
Proof.
  destruct (mergeOpenAPI3_paths [sample.orders; sample.billing; sample.users])
    as [Hreturns Hpaths]; [discriminate|].
  destruct Hreturns as [merged Hmerged].
  { right. repeat constructor; eexists; reflexivity. }
  exists merged. split; [exact Hmerged|].
  destruct (Hpaths merged Hmerged) as (_ & Hsize & _ & Hlast).
  split.
  - rewrite Hsize. vm_compute. reflexivity.
  - apply (Hlast 1 sample.billing).
    + reflexivity.
    + vm_compute. reflexivity.
    + intros [|[|[|j]]] doc' Hj Hdoc'; try lia.
      * injection Hdoc' as <-. vm_compute. reflexivity.
      * discriminate Hdoc'.
Defined.

(** With pairwise disjoint keys the sizes add up: [orders] and [users]. *)
Example mergeOpenAPI3_paths_disjoint_sum :
  ∃ merged,
    mergeOpenAPI3 [sample.orders; sample.users] = Ok merged ∧
    size (path_map sample.orders) = 2 ∧ size (path_map sample.users) = 1 ∧
    size (path_map merged) = 3.
Proof. eexists. split_and!; vm_compute; reflexivity. Qed.

(** A first document without a components object, followed by another
    document: the loop dereferences the nil pointer. *)
Example mergeOpenAPI3_nil_components_panics :
  mergeOpenAPI3 [sample.loaded_bare; sample.loaded_a] = Panic.
Proof. reflexivity. Qed.

(** ** Strings *)

Lemma string_app_assoc (a b c : string) : (a +:+ b) +:+ c = a +:+ b +:+ c.
Proof.
  induction a as [|x a IH]; [reflexivity|].
  change (String x ((a +:+ b) +:+ c) = String x (a +:+ b +:+ c)). congruence.
Qed.

Lemma string_app_nil_r (a : string) : a +:+ "" = a.
Proof.
  induction a as [|x a IH]; [reflexivity|].
  change (String x (a +:+ "") = String x a). congruence.
Qed.

Lemma names_middle (before locator after : string) :
  names (before +:+ locator +:+ after) locator.
Proof. by exists before, after. Qed.

Lemma names_end (before locator : string) : names (before +:+ locator) locator.
Proof. exists before, "". by rewrite string_app_nil_r. Qed.

(** ** The constructor *)

(** C8, as the code has it.  [New] substitutes the four default servers
    (development, test, staging, production) exactly when the configured
    list is nil; a non-nil list, the empty one included, is kept as
    supplied, and the other fields are left alone. *)
Theorem New_servers (c : Config) :
  Servers (config (New c))
  = match Servers c with
    | None => DefaultServers
    | Some servers => Some servers
    end ∧
  InputPaths (config (New c)) = InputPaths c ∧
  OutputPath (config (New c)) = OutputPath c ∧
  URL <$> elems DefaultServers
  = [ "https://api-dev.domain.com"; "https://api-test.domain.com";
      "https://api-stg.domain.com"; "https://api.domain.com" ] ∧
  Description <$> elems DefaultServers
  = [ "Development Environment"; "Test Environment";
      "Staging Environment"; "Production Environment" ].
Proof. unfold New. by destruct c as [inputs output [servers|]]. Qed.

(** C8 fails on an empty, non-nil server list: [New] keeps it and the
    merger is left with no server at all. *)
Lemma New_keeps_empty_servers :
  len (Servers sample.no_servers_config) = 0 ∧
  Servers (config (New sample.no_servers_config)) = Some [] ∧
  Servers (config (New sample.no_servers_config)) ≠ DefaultServers.
Proof. by split_and!. Qed.

(** ** Reading, detecting, converting *)

Section pipeline_claims.
Context {R : Refs} {L : Libs}.

Lemma returns_not_Panic {A} (r : result A) : returns r ≠ Panic.
Proof. by destruct r. Qed.

Lemma inspect_IsYAML obj isYAML version :
  inspect obj isYAML = Some version → IsYAML version = isYAML.
Proof.
  unfold inspect.
  destruct (mapindex obj "swagger"); [by intros [= <-]|].
  destruct (mapindex obj "openapi"); [by intros [= <-]|done].
Qed.

Lemma inspect_None obj isYAML :
  inspect obj isYAML = None
  ↔ mapindex obj "swagger" = None ∧ mapindex obj "openapi" = None.
Proof.
  unfold inspect.
  destruct (mapindex obj "swagger"); [split; [done|by intros [? ?]]|].
  destruct (mapindex obj "openapi"); [split; [done|by intros [? ?]]|done].
Qed.

Lemma inspect_recognized obj isYAML :
  is_Some (mapindex obj "swagger") ∨ is_Some (mapindex obj "openapi") →
  ∃ version, inspect obj isYAML = Some version.
Proof.
  unfold inspect. intros [[v Hv]|[v Hv]].
  - rewrite Hv. by eexists.
  - rewrite Hv. destruct (mapindex obj "swagger"); by eexists.
Qed.

(** C1, as the code has it.  The YAML decoder runs first, on any input: if
    it succeeds and the map it leaves has a [swagger] or [openapi] key, the
    answer carries [IsYAML = true], whatever the syntax of the input.  Only
    when the YAML attempt fails or leaves neither key is the JSON decoder
    tried, into the same map, and then a recognized key gives
    [IsYAML = false]. *)
Theorem detectSwaggerVersion_encoding data obj1 err1 :
  yaml_Unmarshal data None = (obj1, err1) →
  (err1 = None →
   is_Some (mapindex obj1 "swagger") ∨ is_Some (mapindex obj1 "openapi") →
   ∃ version, detectSwaggerVersion data = Ok version ∧
              inspect obj1 true = Some version ∧ IsYAML version = true) ∧
  (∀ obj2,
     is_Some err1 ∨ (mapindex obj1 "swagger" = None ∧ mapindex obj1 "openapi" = None) →
     json_Unmarshal data obj1 = (obj2, None) →
     is_Some (mapindex obj2 "swagger") ∨ is_Some (mapindex obj2 "openapi") →
     ∃ version, detectSwaggerVersion data = Ok version ∧
                inspect obj2 false = Some version ∧ IsYAML version = false).
Proof.
  intros Hyaml. split.
  - intros -> [version Hv]%(inspect_recognized _ true).
    exists version. unfold detectSwaggerVersion. rewrite Hyaml, Hv.
    split_and!; [done..|]. by eapply inspect_IsYAML.
  - intros obj2 Hfirst Hjson [version Hv]%(inspect_recognized _ false).
    exists version. unfold detectSwaggerVersion. rewrite Hyaml.
    assert (match err1 with None => inspect obj1 true | Some _ => None end = None)
      as ->.
    { destruct Hfirst as [[e ->]|Hneither]; [done|].
      destruct err1; [done|]. by apply inspect_None. }
    rewrite Hjson, Hv. split_and!; [done..|]. by eapply inspect_IsYAML.
Qed.

Lemma detectSwaggerVersion_not_Panic data : detectSwaggerVersion data ≠ Panic.
Proof.
  unfold detectSwaggerVersion.
  destruct (yaml_Unmarshal data None) as [obj1 [e1|]].
  - destruct (json_Unmarshal data obj1) as [obj2 [e2|]]; [done|].
    by destruct (inspect obj2 false).
  - destruct (inspect obj1 true); [done|].
    destruct (json_Unmarshal data obj1) as [obj2 [e2|]]; [done|].
    by destruct (inspect obj2 false).
Qed.

Lemma convertToOpenAPI3_not_Panic data version :
  convertToOpenAPI3 data version ≠ Panic.
Proof.
  unfold convertToOpenAPI3.
  destruct (String.prefix "3." (Version version)); [apply returns_not_Panic|].
  destruct (IsYAML version).
  - destruct (yaml_Unmarshal data None) as [jsonObj [e|]]; [done|].
    destruct (json_Marshal jsonObj) as [b|e]; [|done]. simpl.
    destruct (openapi2_UnmarshalJSON b) as [d|e]; [|done]. simpl.
    by destruct (openapi2conv_ToV3 d).
  - simpl. destruct (openapi2_UnmarshalJSON data) as [d|e]; [|done]. simpl.
    by destruct (openapi2conv_ToV3 d).
Qed.

Lemma readDataFromPath_not_Panic path : readDataFromPath path ≠ Panic.
Proof.
  unfold readDataFromPath. destruct (is_url path).
  - destruct (http_Get path) as [resp|e]; [|done].
    case_bool_decide; [done|]. by destruct (Body resp).
  - by destruct (os_ReadFile path).
Qed.

(** C9, as the code has it.  For a locator that starts with [http://] or
    [https://], [readDataFromPath] returns the body exactly when the
    response has status 200 and its body is read without error; in every
    other case (a transport error, any other status, the other 2xx codes
    included, or a failed body read) it returns an error whose message
    contains the locator. *)
Theorem readDataFromPath_url path :
  is_url path = true →
  (∀ data,
     readDataFromPath path = Ok data
     ↔ ∃ resp, http_Get path = Success resp ∧ StatusCode resp = StatusOK ∧
               Body resp = Success data) ∧
  ((∀ data, readDataFromPath path ≠ Ok data) →
   ∃ msg, readDataFromPath path = Err msg ∧ names msg path).
Proof.
  intros Hurl. unfold readDataFromPath. rewrite Hurl.
  destruct (http_Get path) as [resp|e].
  - case_bool_decide as Hstatus.
    + split.
      { intros data. split; [done|]. intros (r & [= <-] & ? & _). done. }
      intros _. eexists. split; [reflexivity|].
      exists ("HTTP request failed with status " +:+ pretty (StatusCode resp)
              +:+ " for URL "), "".
      by rewrite string_app_nil_r, !string_app_assoc.
    + destruct (Body resp) as [body|e] eqn:Hbody.
      * split.
        { intros data. split.
          - intros [= <-]. by exists resp.
          - intros (r & [= <-] & _ & Hr). rewrite Hbody in Hr. by injection Hr as <-. }
        intros Hno. by destruct (Hno body).
      * split.
        { intros data. split; [done|]. intros (r & [= <-] & _ & Hr). congruence. }
        intros _. eexists. split; [reflexivity|].
        exists "failed to read response body from ", (": " +:+ e).
        by rewrite !string_app_assoc.
  - split.
    { intros data. split; [done|]. intros (r & [=] & _). }
    intros _. eexists. split; [reflexivity|].
    by exists "failed to fetch URL ", (": " +:+ e).
Qed.

(** ** [processSwaggerFile] *)

Lemma processSwaggerFile_not_Panic m filePath :
  processSwaggerFile m filePath ≠ Panic.
Proof.
  unfold processSwaggerFile.
  destruct (readDataFromPath filePath) as [data|e|] eqn:Hread; simpl; [|done|].
  - destruct (detectSwaggerVersion data) as [version|e|] eqn:Hdetect; simpl;
      [|done|].
    + by destruct (convertToOpenAPI3 data version) as [doc|e|] eqn:Hconvert;
        simpl; [..|apply convertToOpenAPI3_not_Panic in Hconvert].
    + by apply detectSwaggerVersion_not_Panic in Hdetect.
  - by apply readDataFromPath_not_Panic in Hread.
Qed.

(** C3. Whenever [processSwaggerFile] succeeds, through the OpenAPI 3
    loader or the Swagger 2 converter, from YAML or JSON, the document it
    returns has version "3.0.1" and its servers are the configured servers,
    one for one and in order; nothing of the servers the source declared is
    left. *)
Theorem processSwaggerFile_version_servers m filePath doc :
  processSwaggerFile m filePath = Ok doc →
  T_OpenAPI doc = "3.0.1" ∧
  T_Servers doc = Some (to_openapi3_server <$> elems (Servers (config m))) ∧
  len (T_Servers doc) = len (Servers (config m)) ∧
  ∀ i, (λ server, (Server_URL server, Server_Description server))
         <$> elems (T_Servers doc) !! i
       = (λ server, (URL server, Description server))
         <$> elems (Servers (config m)) !! i.
Proof.
  unfold processSwaggerFile.
  destruct (readDataFromPath filePath) as [data|e|]; simpl; [|done..].
  destruct (detectSwaggerVersion data) as [version|e|]; simpl; [|done..].
  destruct (convertToOpenAPI3 data version) as [loaded|e|]; simpl; [|done..].
  intros [= <-]. cbn [set_Servers set_OpenAPI T_OpenAPI T_Servers].
  split_and!; [done..| |].
  - unfold len. simpl. by rewrite length_fmap.
  - intros i. simpl. rewrite list_lookup_fmap.
    by destruct (elems (Servers (config m)) !! i).
Qed.

(** ** [Merge] and [GetStats] *)

Lemma process_inputs_Ok m paths acc docs :
  process_inputs m paths acc = Ok docs →
  ∃ new, docs = acc ++ new ∧
         Forall2 (λ filePath doc, processSwaggerFile m filePath = Ok doc) paths new.
Proof.
  revert acc. induction paths as [|p paths IH]; intros acc; simpl.
  - intros [= <-]. exists []. by rewrite app_nil_r.
  - destruct (processSwaggerFile m p) as [doc|e|] eqn:Hp; simpl; [|done..].
    intros (new & -> & Hnew)%IH. exists (doc :: new).
    split; [by rewrite <-(assoc_L (++))|]. by constructor.
Qed.

Lemma process_inputs_Err m paths acc filePath msg :
  filePath ∈ paths →
  processSwaggerFile m filePath = Err msg →
  ∃ msg', process_inputs m paths acc = Err msg'.
Proof.
  intros Hin Hfail. revert acc.
  induction paths as [|p paths IH]; intros acc; [by apply elem_of_nil in Hin|].
  simpl. destruct (processSwaggerFile m p) as [doc|e|] eqn:Hp; simpl.
  - apply elem_of_cons in Hin as [->|Hin]; [congruence|]. by apply IH.
  - by eexists.
  - by apply processSwaggerFile_not_Panic in Hp.
Qed.

(** C4. If some input fails to process (its read, detection or conversion
    returns an error), [Merge] returns an error and has not called
    [os.WriteFile].  In any run, a call to [os.WriteFile] comes after every
    input was processed, the documents were merged and the result was
    serialised, and it writes that serialisation to the output path. *)
Theorem Merge_all_or_nothing m filePath msg :
  filePath ∈ elems (InputPaths (config m)) →
  processSwaggerFile m filePath = Err msg →
  (∃ msg', returned (Merge m) = Err msg') ∧
  writes (Merge m) = [] ∧
  ∀ m' path out,
    (path, out) ∈ writes (Merge m') →
    path = OutputPath (config m') ∧
    ∃ docs merged,
      Forall2 (λ filePath doc, processSwaggerFile m' filePath = Ok doc)
              (elems (InputPaths (config m'))) docs ∧
      mergeOpenAPI3 docs = Ok merged ∧
      yaml_Marshal merged = Success out.
Proof.
  intros Hin Hfail. split_and!.
  - unfold Merge. case_bool_decide; [by eexists|].
    case_bool_decide; [by eexists|].
    destruct (process_inputs_Err m _ [] _ _ Hin Hfail) as [msg' ->].
    by eexists.
  - unfold Merge. case_bool_decide; [done|]. case_bool_decide; [done|].
    by destruct (process_inputs_Err m _ [] _ _ Hin Hfail) as [msg' ->].
  - intros m' path out. unfold Merge.
    case_bool_decide; [by intros ?%elem_of_nil|].
    case_bool_decide; [by intros ?%elem_of_nil|].
    destruct (process_inputs m' _ []) as [docs|e|] eqn:Hdocs;
      [|by intros ?%elem_of_nil..].
    destruct (mergeOpenAPI3 docs) as [merged|e|] eqn:Hmerged; simpl;
      [|by intros ?%elem_of_nil..].
    destruct (yaml_Marshal merged) as [out'|e] eqn:Hout; simpl;
      [|by intros ?%elem_of_nil].
    intros [= -> ->]%list_elem_of_singleton. split; [done|].
    apply process_inputs_Ok in Hdocs as (new & -> & Hnew).
    by exists new, merged.
Qed.

(** With a single input, [GetStats] hands the processed document to the
    statistics as it is: nothing was initialised in between. *)
Lemma GetStats_single m filePath doc :
  elems (InputPaths (config m)) = [filePath] →
  processSwaggerFile m filePath = Ok doc →
  GetStats m = stats_of m doc.
Proof.
  intros Hinputs Hdoc. unfold GetStats.
  case_bool_decide as Hlen.
  { unfold len in Hlen. by rewrite Hinputs in Hlen. }
  rewrite Hinputs. simpl. by rewrite Hdoc.
Qed.

(** [merged.Paths.Map()] accepts the nil pointer: a document with a
    components object and no paths counts zero paths. *)
Lemma stats_of_nil_paths m doc components :
  T_Paths doc = None →
  T_Components doc = Some components →
  ∃ stats, stats_of m doc = Ok stats ∧ stats !! "total_paths" = Some 0%Z.
Proof.
  intros Hpaths Hcomponents. unfold stats_of. rewrite Hpaths, Hcomponents.
  eexists. split; [done|]. by simplify_map_eq.
Qed.

(** [merged.Components.Schemas] does not: without a components object the
    statistics panic. *)
Lemma stats_of_nil_components m doc :
  T_Components doc = None → stats_of m doc = Panic.
Proof. intros Hcomponents. unfold stats_of. by rewrite Hcomponents. Qed.

(** C10. With one document [mergeOpenAPI3] returns it as it is, no nil
    paths object or component map initialised, and [GetStats] computes the
    statistics from that very document with no nil check of its own.  The
    dereference that fails is [merged.Components.Schemas], not
    [merged.Paths.Map()], which accepts a nil paths object and counts no
    path: on a single input whose document has no components object
    [GetStats] panics instead of returning an error or a count, and on one
    that has a components object it returns the statistics, with
    [total_paths] 0 when the paths object is nil. *)
Theorem GetStats_single_document_nil_components m filePath doc :
  elems (InputPaths (config m)) = [filePath] →
  processSwaggerFile m filePath = Ok doc →
  mergeOpenAPI3 [doc] = Ok doc ∧
  (T_Components doc = None → GetStats m = Panic) ∧
  (∀ components,
     T_Components doc = Some components →
     ∃ stats,
       GetStats m = Ok stats ∧
       stats !! "total_files" = Some 1%Z ∧
       stats !! "total_paths"
         = Some (Z.of_nat (size (Paths_Map (T_Paths doc)))) ∧
       stats !! "total_schemas"
         = Some (Z.of_nat (maplen (Schemas components))) ∧
       stats !! "total_tags" = Some (Z.of_nat (len (T_Tags doc))) ∧
       (T_Paths doc = None → stats !! "total_paths" = Some 0%Z)).
Proof.
  intros Hinputs Hdoc. rewrite (GetStats_single m filePath doc Hinputs Hdoc).
  split; [done|]. split; [apply stats_of_nil_components|].
  intros components Hcomponents. unfold stats_of. rewrite Hcomponents.
  eexists. split; [done|].
  assert (len (InputPaths (config m)) = 1) as ->.
  { unfold len. by rewrite Hinputs. }
  split_and!; try by simplify_map_eq.
  intros ->. by simplify_map_eq.
Qed.

End pipeline_claims.

(** ** The pipeline on the recorded environment *)

Section examples.
#[local] Existing Instance sample.refs.
#[local] Existing Instance sample.libs.

(** C1 fails on its own example.  The JSON text
    [{"swagger":"2.0","info":{"title":"X"}}] is read by the YAML decoder,
    which runs first and finds [swagger]: the answer is version "2.0" with
    [IsYAML = true], not [false]. *)
Lemma detectSwaggerVersion_json_reported_as_yaml :
  detectSwaggerVersion sample.swagger2_json
    = Ok {| Version := "2.0"; IsYAML := true |} ∧
  detectSwaggerVersion sample.swagger2_json
    ≠ Ok {| Version := "2.0"; IsYAML := false |}.
Proof. split; [vm_compute; reflexivity|]. vm_compute. intros [=]. Qed.

(** Both halves of the detection theorem at work: the JSON text above goes
    through the YAML attempt, and a JSON text with a repeated key, which the
    YAML decoder refuses, falls through to the JSON attempt. *)
Lemma detectSwaggerVersion_encoding_witness :
  (∃ version, detectSwaggerVersion sample.swagger2_json = Ok version ∧
              IsYAML version = true) ∧
  (∃ version, detectSwaggerVersion sample.repeated_key_json = Ok version ∧
              IsYAML version = false).
Proof.
  split.
  - destruct (detectSwaggerVersion_encoding sample.swagger2_json
                (yaml_Unmarshal sample.swagger2_json None).1
                (yaml_Unmarshal sample.swagger2_json None).2
                (surjective_pairing _)) as [Hyaml _].
    destruct Hyaml as (version & Hdetect & _ & Hflag).
    + vm_compute. reflexivity.
    + left. vm_compute. eexists. reflexivity.
    + exists version. split; assumption.
  - destruct (detectSwaggerVersion_encoding sample.repeated_key_json
                (yaml_Unmarshal sample.repeated_key_json None).1
                (yaml_Unmarshal sample.repeated_key_json None).2
                (surjective_pairing _)) as [_ Hjson].
    destruct (Hjson (json_Unmarshal sample.repeated_key_json None).1)
      as (version & Hdetect & _ & Hflag).
    + left. vm_compute. eexists. reflexivity.
    + vm_compute. reflexivity.
    + right. vm_compute. eexists. reflexivity.
    + exists version. split; assumption.
Defined.

(** C9 fails on a 201 response: the status is 2xx and the body arrives, yet
    the read is an error, because only status 200 is accepted. *)
Lemma readDataFromPath_rejects_201 :
  is_url "https://specs.example/created.yaml" = true ∧
  http_Get "https://specs.example/created.yaml"
    = Success {| StatusCode := 201; Body := Success sample.api_a_yaml |} ∧
  (200 ≤ 201 < 300)%Z ∧
  readDataFromPath "https://specs.example/created.yaml"
    = Err "HTTP request failed with status 201 for URL https://specs.example/created.yaml".
Proof.
  split; [reflexivity|]. split; [reflexivity|]. split; [lia|].
  vm_compute. reflexivity.
Qed.

(** The read theorem on a 200 response and on a host that does not
    resolve. *)
Lemma readDataFromPath_url_witness :
  readDataFromPath "https://specs.example/api-a.yaml" = Ok sample.api_a_yaml ∧
  ∃ msg, readDataFromPath "https://nowhere.example/api.yaml" = Err msg ∧
         names msg "https://nowhere.example/api.yaml".
Proof.
  split.
  - apply (readDataFromPath_url "https://specs.example/api-a.yaml"); [reflexivity|].
    eexists. split; [reflexivity|]. split; reflexivity.
  - apply (readDataFromPath_url "https://nowhere.example/api.yaml"); [reflexivity|].
    intros data. vm_compute. intros Hread. discriminate Hread.
Defined.

(** The normalisation theorem on [api-a.yaml], which declares the server
    [https://declared.example]: the processed document carries the two
    configured servers instead. *)
Lemma processSwaggerFile_version_servers_witness :
  T_Servers sample.loaded_a = Some [sample.declared_server] ∧
  ∃ doc,
    processSwaggerFile (sample.merger_for ["api-a.yaml"]) "api-a.yaml" = Ok doc ∧
    T_OpenAPI doc = "3.0.1" ∧
    T_Servers doc = Some (to_openapi3_server <$> sample.custom_servers).
Proof.
  split; [reflexivity|]. eexists. split; [vm_compute; reflexivity|].
  edestruct (processSwaggerFile_version_servers
               (sample.merger_for ["api-a.yaml"]) "api-a.yaml")
    as (Hversion & Hservers & _); [vm_compute; reflexivity|].
  split; [exact Hversion|exact Hservers].
Defined.

(** The all-or-nothing theorem on two inputs of which the second does not
    exist: an error, and no write. *)
Lemma Merge_all_or_nothing_witness :
  (∃ msg, returned (Merge (sample.merger_for ["api-a.yaml"; "missing.yaml"]))
          = Err msg) ∧
  writes (Merge (sample.merger_for ["api-a.yaml"; "missing.yaml"])) = [].
Proof.
  edestruct (Merge_all_or_nothing
               (sample.merger_for ["api-a.yaml"; "missing.yaml"]) "missing.yaml")
    as (Herr & Hwrites & _).
  - apply list_elem_of_further, list_elem_of_here.
  - vm_compute. reflexivity.
  - split; [exact Herr|exact Hwrites].
Defined.

(** When every input is fine the merged document is written once, to the
    output path. *)
Example Merge_writes_once :
  returned (Merge (sample.merger_for ["api-a.yaml"; "schemas.yaml"])) = Ok () ∧
  writes (Merge (sample.merger_for ["api-a.yaml"; "schemas.yaml"]))
    = [("merged.yaml", "openapi: 3.0.1")].
Proof. split; vm_compute; reflexivity. Qed.

(** C10 fails as to what is dereferenced.  [schemas.yaml] is a single input
    whose document has a nil paths object: [merged.Paths.Map()] on it is the
    empty map, and [GetStats] returns the statistics, with no path and one
    schema; it does not panic. *)
Lemma GetStats_nil_paths_counts_zero :
  ∃ doc stats,
    processSwaggerFile (sample.merger_for ["schemas.yaml"]) "schemas.yaml" = Ok doc ∧
    T_Paths doc = None ∧
    GetStats (sample.merger_for ["schemas.yaml"]) = Ok stats ∧
    stats !! "total_paths" = Some 0%Z ∧
    stats !! "total_schemas" = Some 1%Z ∧
    GetStats (sample.merger_for ["schemas.yaml"]) ≠ Panic.
Proof.
  eexists _, _. split; [vm_compute; reflexivity|].
  split; [reflexivity|]. split; [vm_compute; reflexivity|].
  split; [vm_compute; reflexivity|]. split; [vm_compute; reflexivity|].
  vm_compute. intros [=].
Qed.

(** The statistics theorem on [bare.yaml], which has neither paths nor
    components, and on [schemas.yaml], which has components and no paths. *)
Lemma GetStats_single_document_nil_components_witness :
  GetStats (sample.merger_for ["bare.yaml"]) = Panic ∧
  ∃ stats,
    GetStats (sample.merger_for ["schemas.yaml"]) = Ok stats ∧
    stats !! "total_paths" = Some 0%Z.
Proof.
  split.
  - edestruct (GetStats_single_document_nil_components
                 (sample.merger_for ["bare.yaml"]) "bare.yaml")
      as (_ & Hpanic & _); [reflexivity|vm_compute; reflexivity|].
    apply Hpanic. reflexivity.
  - edestruct (GetStats_single_document_nil_components
                 (sample.merger_for ["schemas.yaml"]) "schemas.yaml")
      as (_ & _ & Hstats); [reflexivity|vm_compute; reflexivity|].
    edestruct Hstats as (stats & Hok & _ & _ & _ & _ & Hnil); [reflexivity|].
    exists stats. split; [exact Hok|]. apply Hnil. reflexivity.
Defined.

(** The Swagger 2 branch: [legacy.yaml] is decoded, written as JSON, parsed
    and converted, and comes out with version "3.0.1" and the configured
    servers as well. *)
Example processSwaggerFile_swagger2 :
  json_Marshal (yaml_Unmarshal sample.legacy_yaml None).1
    = Success sample.legacy_json ∧
  ∃ doc,
    processSwaggerFile (sample.merger_for ["legacy.yaml"]) "legacy.yaml" = Ok doc ∧
    T_OpenAPI doc = "3.0.1" ∧
    T_Servers doc = Some (to_openapi3_server <$> sample.custom_servers) ∧
    dom (path_map doc) = {["/b"]}.
Proof.
  split; [vm_compute; reflexivity|].
  eexists. split_and!; vm_compute; reflexivity.
Qed.

(** An OpenAPI 3 document with path [/a] and schema [S1] merged with a
    Swagger 2 document with path [/b] and definition [S2]: two files, two
    paths, two schemas, no tag. *)
Example GetStats_two_documents :
  ∃ stats,
    GetStats (sample.merger_for ["api-a.yaml"; "legacy.yaml"]) = Ok stats ∧
    stats !! "total_files" = Some 2%Z ∧
    stats !! "total_paths" = Some 2%Z ∧
    stats !! "total_schemas" = Some 2%Z ∧
    stats !! "total_tags" = Some 0%Z.
Proof. eexists. split_and!; vm_compute; reflexivity. Qed.

End examples.

Section plain_examples.
#[local] Existing Instance sample.refs.
#[local] Existing Instance sample_plain.libs.

(** C2.  On [pets.yaml] and [stores.yaml], two OpenAPI 3 documents with one
    path each, [/pets] and [/stores], and no [components] key.  Both are
    processed; the merge of the two processed documents does not give a
    document with the two paths: it panics on the nil components pointer of
    the first, so that [Merge] writes nothing and [GetStats] panics too. *)
Theorem mergeOpenAPI3_paths_panics_without_components :
  ∃ doc1 doc2,
    processSwaggerFile (sample.merger_for ["pets.yaml"; "stores.yaml"])
                       "pets.yaml" = Ok doc1 ∧
    processSwaggerFile (sample.merger_for ["pets.yaml"; "stores.yaml"])
                       "stores.yaml" = Ok doc2 ∧
    dom (path_map doc1) = {["/pets"]} ∧
    dom (path_map doc2) = {["/stores"]} ∧
    T_Components doc1 = None ∧ T_Components doc2 = None ∧
    mergeOpenAPI3 [doc1; doc2] = Panic ∧
    returned (Merge (sample.merger_for ["pets.yaml"; "stores.yaml"])) = Panic ∧
    writes (Merge (sample.merger_for ["pets.yaml"; "stores.yaml"])) = [] ∧
    GetStats (sample.merger_for ["pets.yaml"; "stores.yaml"]) = Panic.
Proof.
  eexists _, _. split; [vm_compute; reflexivity|].
  split; [vm_compute; reflexivity|].
  split_and!; vm_compute; reflexivity.
Qed.

(** C7.  On the same two documents, whose tag sequences are [A,B] and
    [B,C]:
    the merge does not yield a document with the tags [A,B,B,C], nor any
    document; it panics on the nil components pointer. *)
Theorem mergeOpenAPI3_tags_panics_without_components :
  ∃ doc1 doc2,
    processSwaggerFile (sample.merger_for ["pets.yaml"; "stores.yaml"])
                       "pets.yaml" = Ok doc1 ∧
    processSwaggerFile (sample.merger_for ["pets.yaml"; "stores.yaml"])
                       "stores.yaml" = Ok doc2 ∧
    Tag_Name <$> elems (T_Tags doc1) = ["A"; "B"] ∧
    Tag_Name <$> elems (T_Tags doc2) = ["B"; "C"] ∧
    mergeOpenAPI3 [doc1; doc2] = Panic ∧
    ∀ merged, mergeOpenAPI3 [doc1; doc2] ≠ Ok merged.
Proof.
  eexists _, _. split; [vm_compute; reflexivity|].
  split; [vm_compute; reflexivity|].
  split; [reflexivity|]. split; [reflexivity|]. split; [reflexivity|].
  intros merged. vm_compute. intros [=].
Qed.

End plain_examples.

(** ** More on the merge: panics, components, what is kept of the first
    document, merging in stages *)

Section merge_extras.
Context {R : Refs}.
Implicit Types (merged doc first : T) (docs rest : list T).

Lemma mergeOpenAPI3_not_Err_cons doc rest msg :
  mergeOpenAPI3 (doc :: rest) ≠ Err msg.
Proof. apply merge_loop_not_Err. Qed.

(** X1. With two or more documents the merge panics exactly when some document,
    the first included, has no components object; otherwise it returns. *)
Theorem mergeOpenAPI3_panics_iff docs :
  2 ≤ length docs →
  (mergeOpenAPI3 docs = Panic ↔ ∃ doc, doc ∈ docs ∧ T_Components doc = None) ∧
  ((∃ merged, mergeOpenAPI3 docs = Ok merged) ↔ Forall has_components docs).
Proof.
  intros Hlen.
  assert (docs ≠ []) as Hne by (intros ->; simpl in Hlen; lia).
  pose proof (mergeOpenAPI3_returns docs Hne) as Hret.
  assert ((∃ merged, mergeOpenAPI3 docs = Ok merged) ↔ Forall has_components docs)
    as Hok.
  { rewrite Hret. split; [intros [?|?]; [lia|done]|by right]. }
  split; [|done]. split.
  - intros Hpanic.
    destruct (decide (Forall has_components docs)) as [Hall|Hnot].
    + apply Hok in Hall as [merged Hm]. congruence.
    + apply not_Forall_Exists in Hnot; [|apply _].
      apply Exists_exists in Hnot as (doc & Hin & Hdoc).
      exists doc. split; [done|].
      destruct (T_Components doc) as [c|] eqn:Hc; [|done].
      exfalso. apply Hdoc. unfold has_components. rewrite Hc. by eexists.
  - intros (doc & Hin & Hnone).
    destruct (mergeOpenAPI3 docs) as [merged|msg|] eqn:Hm; [| |done].
    + assert (Forall has_components docs) as Hall by (apply Hok; by eexists).
      rewrite Forall_forall in Hall. destruct (Hall doc Hin) as [c Hc]. congruence.
    + destruct docs as [|d rest]; [done|]. by apply mergeOpenAPI3_not_Err_cons in Hm.
Qed.

Lemma merge_doc_components merged doc merged' :
  merge_doc merged doc = Ok merged' →
  ∃ mc dc, T_Components merged = Some mc ∧ T_Components doc = Some dc ∧
           T_Components merged' = Some (merged_components mc dc).
Proof.
  rewrite merge_doc_eq.
  destruct (T_Components merged) as [mc|]; [|done].
  destruct (T_Components doc) as [dc|]; [|done].
  intros [= <-]. exists mc, dc. split_and!; [done..|].
  unfold merge_tags. by destruct (T_Tags doc).
Qed.

Lemma merge_doc_component_map {V} (field : Components → gomap V) merged doc merged' :
  merged_field field →
  merge_doc merged doc = Ok merged' →
  (∃ c, T_Components merged' = Some c ∧
        field c = Some (component_map field doc ∪ component_map field merged)) ∧
  component_map field merged'
  = component_map field doc ∪ component_map field merged.
Proof.
  intros Hfield (mc & dc & Hmc & Hdc & Hc)%merge_doc_components.
  unfold component_map. rewrite Hmc, Hdc, Hc, Hfield. split; [|done].
  eexists. split; [done|]. by rewrite Hfield.
Qed.

Lemma merge_loop_component_map {V} (field : Components → gomap V) merged doc rest merged' :
  merged_field field →
  merge_loop merged (doc :: rest) = Ok merged' →
  ∃ c, T_Components merged' = Some c ∧
       field c = Some (foldl overlay (component_map field merged)
                             (component_map field <$> doc :: rest)).
Proof.
  intros Hfield. revert merged doc. induction rest as [|doc' rest IH];
    intros merged doc; cbn [merge_loop].
  - destruct (merge_doc merged doc) as [m| |] eqn:Hdoc; [|done..]. simpl.
    intros [= <-].
    by destruct (merge_doc_component_map field _ _ _ Hfield Hdoc) as [? _].
  - destruct (merge_doc merged doc) as [m| |] eqn:Hdoc; [|done..].
    change (Ok m ≫= λ merged0, merge_loop merged0 (doc' :: rest))
      with (merge_loop m (doc' :: rest)).
    intros (c & Hc & Hf)%IH. exists c. split; [done|]. rewrite Hf.
    rewrite !fmap_cons. cbn [foldl]. unfold overlay at 2 4.
    by destruct (merge_doc_component_map field _ _ _ Hfield Hdoc) as [_ ->].
Qed.

(** X2. With two or more documents, each of the five merged component maps
    (schemas, responses, parameters, request bodies, headers) of the result
    is a non-nil map holding the entries of all the documents' maps, the
    entry of the last document that declares a name winning. *)
Theorem mergeOpenAPI3_components docs merged :
  2 ≤ length docs →
  mergeOpenAPI3 docs = Ok merged →
  ∃ c, T_Components merged = Some c ∧
       Schemas c = Some (last_wins (component_map Schemas <$> docs)) ∧
       Responses c = Some (last_wins (component_map Responses <$> docs)) ∧
       Parameters c = Some (last_wins (component_map Parameters <$> docs)) ∧
       RequestBodies c = Some (last_wins (component_map RequestBodies <$> docs)) ∧
       Headers c = Some (last_wins (component_map Headers <$> docs)).
Proof.
  destruct docs as [|first [|doc rest]]; [simpl; lia..|]. intros _ Hm.
  cbn [mergeOpenAPI3] in Hm.
  destruct (merge_loop_component_map Schemas _ _ _ _ ltac:(done) Hm)
    as (c & Hc & Hschemas).
  exists c. split; [done|].
  rewrite !(fmap_cons _ first), !last_wins_cons.
  split; [done|].
  destruct (merge_loop_component_map Responses _ _ _ _ ltac:(done) Hm)
    as (c1 & Hc1 & ?).
  destruct (merge_loop_component_map Parameters _ _ _ _ ltac:(done) Hm)
    as (c2 & Hc2 & ?).
  destruct (merge_loop_component_map RequestBodies _ _ _ _ ltac:(done) Hm)
    as (c3 & Hc3 & ?).
  destruct (merge_loop_component_map Headers _ _ _ _ ltac:(done) Hm)
    as (c4 & Hc4 & ?).
  by simplify_eq.
Qed.

Lemma Paths_Extensions_fold_Set (p : Paths) (m : gmap string PathItem) :
  Paths_Extensions (map_fold (λ path item p, Paths_Set p path item) p m)
  = Paths_Extensions p.
Proof.
  apply (map_fold_weak_ind (λ r _, Paths_Extensions r = Paths_Extensions p));
    [done|]. by intros i x m' r _ IH.
Qed.

Lemma merge_paths_extensions merged doc :
  paths_extensions (merge_paths merged doc) = paths_extensions merged.
Proof.
  unfold paths_extensions, merge_paths. destruct (T_Paths doc); [|done].
  cbn [set_Paths T_Paths]. rewrite Paths_Extensions_fold_Set.
  by destruct (T_Paths merged).
Qed.

Lemma untouched_trans (a b c : T) : untouched a b → untouched b c → untouched a c.
Proof.
  unfold untouched. intros Hab Hbc. destruct_and!. split_and!; congruence.
Qed.

Lemma merge_doc_untouched merged doc merged' :
  merge_doc merged doc = Ok merged' → untouched merged' merged.
Proof.
  rewrite merge_doc_eq.
  destruct (T_Components merged) as [mc|] eqn:Hmc; [|done].
  destruct (T_Components doc) as [dc|]; [|done].
  intros [= <-]. unfold untouched, merge_tags.
  assert (paths_extensions (merge_paths merged doc) = paths_extensions merged)
    as Hext by apply merge_paths_extensions.
  unfold paths_extensions in *. unfold merge_paths in *.
  destruct (T_Tags doc), (T_Paths doc); cbn in *; rewrite ?Hmc;
    split_and!; done.
Qed.

Lemma merge_loop_untouched merged rest merged' :
  merge_loop merged rest = Ok merged' → untouched merged' merged.
Proof.
  revert merged. induction rest as [|doc rest IH]; intros merged; simpl.
  - intros [= <-]. unfold untouched. by split_and!.
  - destruct (merge_doc merged doc) as [m| |] eqn:Hdoc; [|done..]. simpl.
    intros Hloop. eapply untouched_trans; [by apply IH|].
    by apply (merge_doc_untouched _ doc).
Qed.

(** X3. The merged document keeps the document-level fields of the first
    document: its version string, info, servers, security requirements,
    external documentation and extensions.  Nothing of these is taken from a
    later document. *)
Theorem mergeOpenAPI3_keeps_first first rest merged :
  mergeOpenAPI3 (first :: rest) = Ok merged →
  T_OpenAPI merged = T_OpenAPI first ∧
  T_Info merged = T_Info first ∧
  T_Servers merged = T_Servers first ∧
  T_Security merged = T_Security first ∧
  T_ExternalDocs merged = T_ExternalDocs first ∧
  T_Extensions merged = T_Extensions first.
Proof.
  cbn [mergeOpenAPI3]. intros Hm%merge_loop_untouched.
  unfold untouched in Hm. destruct_and!. by split_and!.
Qed.

(** X4. Only five component maps are merged.  The security schemes,
    examples, links, callbacks and extensions of the components object, and
    the extensions of the paths object, are those of the first document:
    what later documents declare there is dropped. *)
Theorem mergeOpenAPI3_drops_later_security first rest merged :
  mergeOpenAPI3 (first :: rest) = Ok merged →
  SecuritySchemes <$> T_Components merged = SecuritySchemes <$> T_Components first ∧
  Examples <$> T_Components merged = Examples <$> T_Components first ∧
  Links <$> T_Components merged = Links <$> T_Components first ∧
  Callbacks <$> T_Components merged = Callbacks <$> T_Components first ∧
  Components_Extensions <$> T_Components merged
    = Components_Extensions <$> T_Components first ∧
  paths_extensions merged = paths_extensions first.
Proof.
  cbn [mergeOpenAPI3]. intros Hm%merge_loop_untouched.
  unfold untouched in Hm. destruct_and!. by split_and!.
Qed.

Lemma merge_loop_app merged a b :
  merge_loop merged (a ++ b) = merge_loop merged a ≫= λ m, merge_loop m b.
Proof.
  revert merged. induction a as [|doc a IH]; intros merged; [done|].
  simpl. destruct (merge_doc merged doc) as [m| |]; simpl; [apply IH|done..].
Qed.

(** X5. Merging in stages gives the same result as merging at once: the
    merge of [first :: a ++ b] is the merge of [first :: a] followed by the
    merge of its result with [b], panics included. *)
Theorem mergeOpenAPI3_in_stages first a b :
  mergeOpenAPI3 (first :: a ++ b)
  = mergeOpenAPI3 (first :: a) ≫= λ merged, mergeOpenAPI3 (merged :: b).
Proof. apply merge_loop_app. Qed.

Lemma append_None {A} (s : slice A) (xs : list A) :
  append s xs = None ↔ s = None ∧ xs = [].
Proof. destruct xs; simpl; [|split; [done|by intros [_ ?]]]. split; [done|by intros [? _]]. Qed.

Lemma merge_doc_nil merged doc merged' :
  merge_doc merged doc = Ok merged' →
  (T_Paths merged' = None ↔ T_Paths merged = None ∧ T_Paths doc = None) ∧
  (T_Tags merged' = None ↔ T_Tags merged = None ∧ elems (T_Tags doc) = []).
Proof.
  intros Hdoc. split.
  - revert Hdoc. rewrite merge_doc_eq.
    destruct (T_Components merged) as [mc|]; [|done].
    destruct (T_Components doc) as [dc|]; [|done].
    intros [= <-]. unfold merge_tags, merge_paths.
    destruct (T_Tags doc), (T_Paths doc); cbn; split; (done || by intros [? ?]).
  - apply merge_doc_Ok in Hdoc as (_ & _ & _ & _ & ->).
    destruct (T_Tags doc) as [tags|]; simpl.
    + apply append_None.
    + split; [done|by intros [? _]].
Qed.

(** X6. The merged document has no paths object exactly when no input
    document has one, and a nil tag list exactly when the first document's
    tag list is nil and no later document has a tag. *)
Theorem mergeOpenAPI3_nil_fields first rest merged :
  mergeOpenAPI3 (first :: rest) = Ok merged →
  (T_Paths merged = None ↔ Forall (λ doc, T_Paths doc = None) (first :: rest)) ∧
  (T_Tags merged = None
   ↔ T_Tags first = None ∧ Forall (λ doc, elems (T_Tags doc) = []) rest).
Proof.
  cbn [mergeOpenAPI3]. revert first.
  induction rest as [|doc rest IH]; intros first; simpl.
  - intros [= <-]. split.
    + split; [by repeat constructor|]. by intros [? _]%Forall_cons.
    + split; [done|by intros [? _]].
  - destruct (merge_doc first doc) as [m| |] eqn:Hdoc; [|done..]. simpl.
    intros [Hpaths Htags]%IH.
    apply merge_doc_nil in Hdoc as [Hp Ht].
    rewrite Hpaths, Htags, !Forall_cons, Hp, Ht. split; tauto.
Qed.

End merge_extras.

(** ** More on detection, conversion, reading and processing *)

Section pipeline_extras.
Context {R : Refs} {L : Libs}.

(** X7. The version is the rendering of the [swagger] value when the key is
    there, of the [openapi] value otherwise: [swagger] has precedence, in the
    YAML attempt and in the JSON attempt alike. *)
Theorem detectSwaggerVersion_swagger_first data obj1 err1 :
  yaml_Unmarshal data None = (obj1, err1) →
  (∀ s, err1 = None → mapindex obj1 "swagger" = Some s →
        detectSwaggerVersion data
        = Ok {| Version := Sprintf_v s; IsYAML := true |}) ∧
  (∀ o, err1 = None → mapindex obj1 "swagger" = None →
        mapindex obj1 "openapi" = Some o →
        detectSwaggerVersion data
        = Ok {| Version := Sprintf_v o; IsYAML := true |}) ∧
  (∀ obj2 s,
     is_Some err1 ∨ (mapindex obj1 "swagger" = None ∧ mapindex obj1 "openapi" = None) →
     json_Unmarshal data obj1 = (obj2, None) →
     mapindex obj2 "swagger" = Some s →
     detectSwaggerVersion data
     = Ok {| Version := Sprintf_v s; IsYAML := false |}) ∧
  (∀ obj2 o,
     is_Some err1 ∨ (mapindex obj1 "swagger" = None ∧ mapindex obj1 "openapi" = None) →
     json_Unmarshal data obj1 = (obj2, None) →
     mapindex obj2 "swagger" = None →
     mapindex obj2 "openapi" = Some o →
     detectSwaggerVersion data
     = Ok {| Version := Sprintf_v o; IsYAML := false |}).
Proof.
  intros Hyaml.
  assert (∀ obj2,
            is_Some err1 ∨ (mapindex obj1 "swagger" = None ∧ mapindex obj1 "openapi" = None) →
            json_Unmarshal data obj1 = (obj2, None) →
            detectSwaggerVersion data
            = match inspect obj2 false with
              | Some version => Ok version
              | None => Err "unable to detect swagger/openapi version"
              end) as Hjson.
  { intros obj2 Hfirst Hj. unfold detectSwaggerVersion. rewrite Hyaml.
    assert (match err1 with None => inspect obj1 true | Some _ => None end = None)
      as ->.
    { destruct Hfirst as [[e ->]|Hneither]; [done|].
      destruct err1; [done|]. by apply inspect_None. }
    by rewrite Hj. }
  split_and!.
  - intros s -> Hs. unfold detectSwaggerVersion, inspect. by rewrite Hyaml, Hs.
  - intros o -> Hs Ho. unfold detectSwaggerVersion, inspect.
    by rewrite Hyaml, Hs, Ho.
  - intros obj2 s Hfirst Hj Hs. rewrite (Hjson _ Hfirst Hj). unfold inspect.
    by rewrite Hs.
  - intros obj2 o Hfirst Hj Hs Ho. rewrite (Hjson _ Hfirst Hj). unfold inspect.
    by rewrite Hs, Ho.
Qed.

Lemma attempt_None (err : option string) obj isYAML :
  match err with None => inspect obj isYAML | Some _ => None end = None
  ↔ is_Some err ∨ (mapindex obj "swagger" = None ∧ mapindex obj "openapi" = None).
Proof.
  destruct err as [e|].
  - split; [by left; eexists|done].
  - rewrite inspect_None. split; [by right|]. by intros [[? [=]]|?].
Qed.

(** X8. Detection fails exactly when neither attempt recognizes a key, each
    attempt failing to decode or leaving neither [swagger] nor [openapi];
    the error is always the same message, the decoders' own errors are not
    reported, and detection does not panic. *)
Theorem detectSwaggerVersion_unknown data obj1 err1 obj2 err2 :
  yaml_Unmarshal data None = (obj1, err1) →
  json_Unmarshal data obj1 = (obj2, err2) →
  (detectSwaggerVersion data = Err "unable to detect swagger/openapi version"
   ↔ (is_Some err1 ∨ (mapindex obj1 "swagger" = None ∧ mapindex obj1 "openapi" = None)) ∧
     (is_Some err2 ∨ (mapindex obj2 "swagger" = None ∧ mapindex obj2 "openapi" = None))) ∧
  (∀ msg, detectSwaggerVersion data = Err msg →
          msg = "unable to detect swagger/openapi version") ∧
  detectSwaggerVersion data ≠ Panic.
Proof.
  intros Hyaml Hjson. unfold detectSwaggerVersion. rewrite Hyaml, Hjson.
  rewrite <-(attempt_None err1 obj1 true), <-(attempt_None err2 obj2 false).
  destruct (match err1 with None => inspect obj1 true | Some _ => None end)
    as [v1|];
    destruct (match err2 with None => inspect obj2 false | Some _ => None end)
    as [v2|].
  - split_and!; [|done..]. split; [done|by intros [? _]].
  - split_and!; [|done..]. split; [done|by intros [? _]].
  - split_and!; [|done..]. split; [done|by intros [_ ?]].
  - split_and!; [done| |done]. by intros msg [= <-].
Qed.

(** X9. A version that starts with "3." goes to the loader, whose result and
    error are returned as they are, whatever the encoding flag.  Any other
    version is handled as Swagger 2: the conversion succeeds exactly when
    the JSON text (the input itself, or for a YAML input the re-encoding of
    its decoded map) parses as Swagger 2 and the parsed document converts,
    and the result is the converter's. *)
Theorem convertToOpenAPI3_branches data version :
  (String.prefix "3." (Version version) = true →
   convertToOpenAPI3 data version = returns (LoadFromData data)) ∧
  (String.prefix "3." (Version version) = false →
   ∀ doc,
     convertToOpenAPI3 data version = Ok doc
     ↔ ∃ json doc2,
         (if IsYAML version
          then ∃ obj, yaml_Unmarshal data None = (obj, None) ∧
                      json_Marshal obj = Success json
          else json = data) ∧
         openapi2_UnmarshalJSON json = Success doc2 ∧
         openapi2conv_ToV3 doc2 = Success doc).
Proof.
  unfold convertToOpenAPI3. split; intros ->; [done|]. intros doc.
  destruct (IsYAML version).
  - destruct (yaml_Unmarshal data None) as [obj [e|]].
    { split; [done|]. by intros (json & doc2 & (obj' & [= _ ?] & _) & _). }
    destruct (json_Marshal obj) as [json|e] eqn:Hjson; simpl.
    + destruct (openapi2_UnmarshalJSON json) as [doc2|e] eqn:Hdoc2; simpl.
      * destruct (openapi2conv_ToV3 doc2) as [doc3|e] eqn:Hdoc3; simpl.
        -- split.
           ++ intros [= <-]. exists json, doc2. split; [by exists obj|done].
           ++ intros (json' & doc2' & (obj' & [= <-] & Hj) & Hd2 & Hd3).
              congruence.
        -- split; [done|].
           intros (json' & doc2' & (obj' & [= <-] & Hj) & Hd2 & Hd3). congruence.
      * split; [done|].
        intros (json' & doc2' & (obj' & [= <-] & Hj) & Hd2 & Hd3). congruence.
    + split; [done|].
      intros (json' & doc2' & (obj' & [= <-] & Hj) & _). congruence.
  - simpl. destruct (openapi2_UnmarshalJSON data) as [doc2|e] eqn:Hdoc2; simpl.
    + destruct (openapi2conv_ToV3 doc2) as [doc3|e] eqn:Hdoc3; simpl.
      * split.
        -- intros [= <-]. by exists data, doc2.
        -- intros (json' & doc2' & -> & Hd2 & Hd3). congruence.
      * split; [done|]. intros (json' & doc2' & -> & Hd2 & Hd3). congruence.
    + split; [done|]. intros (json' & doc2' & -> & Hd2 & Hd3). congruence.
Qed.

(** X10. A locator that starts with neither [http://] nor [https://] is read as
    a file: the bytes are returned exactly when [os.ReadFile] returns them,
    and a failed read is an error that carries the cause and names the
    locator. *)
Theorem readDataFromPath_file path :
  is_url path = false →
  (∀ data, readDataFromPath path = Ok data ↔ os_ReadFile path = Success data) ∧
  (∀ cause, os_ReadFile path = Failure cause →
            readDataFromPath path
            = Err ("failed to read file " +:+ path +:+ ": " +:+ cause) ∧
            names ("failed to read file " +:+ path +:+ ": " +:+ cause) path).
Proof.
  intros Hurl. unfold readDataFromPath. rewrite Hurl. split.
  - intros data. destruct (os_ReadFile path); simpl; [|done].
    split; by intros [= <-].
  - intros cause ->. simpl. rewrite !string_app_assoc.
    split; [done|apply names_middle].
Qed.

(** Success of [processSwaggerFile], taken apart. *)
Lemma processSwaggerFile_Ok_inv m filePath doc :
  processSwaggerFile m filePath = Ok doc →
  ∃ data version loaded,
    readDataFromPath filePath = Ok data ∧
    detectSwaggerVersion data = Ok version ∧
    convertToOpenAPI3 data version = Ok loaded ∧
    doc = set_Servers (set_OpenAPI loaded "3.0.1")
            (Some (to_openapi3_server <$> elems (Servers (config m)))).
Proof.
  unfold processSwaggerFile.
  destruct (readDataFromPath filePath) as [data|e|] eqn:Hread; simpl; [|done..].
  destruct (detectSwaggerVersion data) as [version|e|] eqn:Hdetect; simpl;
    [|done..].
  destruct (convertToOpenAPI3 data version) as [loaded|e|] eqn:Hconvert; simpl;
    [|done..].
  intros [= <-]. by exists data, version, loaded.
Qed.

(** X11. Besides the version string and the servers, [processSwaggerFile] hands
    on the converted document untouched: paths, components, tags, info,
    security, external documentation and extensions are the converter's. *)
Theorem processSwaggerFile_keeps_content m filePath doc :
  processSwaggerFile m filePath = Ok doc →
  ∃ data version loaded,
    readDataFromPath filePath = Ok data ∧
    detectSwaggerVersion data = Ok version ∧
    convertToOpenAPI3 data version = Ok loaded ∧
    T_Paths doc = T_Paths loaded ∧
    T_Components doc = T_Components loaded ∧
    T_Tags doc = T_Tags loaded ∧
    T_Info doc = T_Info loaded ∧
    T_Security doc = T_Security loaded ∧
    T_ExternalDocs doc = T_ExternalDocs loaded ∧
    T_Extensions doc = T_Extensions loaded.
Proof.
  intros (data & version & loaded & ? & ? & ? & ->)%processSwaggerFile_Ok_inv.
  exists data, version, loaded. by split_and!.
Qed.

(** X12. A failure of [processSwaggerFile] tells the stage and the file: the
    message is the cause prefixed with "failed to read", "failed to detect
    version for" or "failed to convert" and the file path, for the first of
    the three stages that fails. *)
Theorem processSwaggerFile_error m filePath msg :
  processSwaggerFile m filePath = Err msg →
  names msg filePath ∧
  ((∃ cause, readDataFromPath filePath = Err cause ∧
             msg = "failed to read " +:+ filePath +:+ ": " +:+ cause) ∨
   (∃ data cause, readDataFromPath filePath = Ok data ∧
                  detectSwaggerVersion data = Err cause ∧
                  msg = "failed to detect version for " +:+ filePath +:+ ": "
                        +:+ cause) ∨
   (∃ data version cause,
      readDataFromPath filePath = Ok data ∧
      detectSwaggerVersion data = Ok version ∧
      convertToOpenAPI3 data version = Err cause ∧
      msg = "failed to convert " +:+ filePath +:+ ": " +:+ cause)).
Proof.
  unfold processSwaggerFile.
  destruct (readDataFromPath filePath) as [data|e|] eqn:Hread; simpl; [| |done].
  - destruct (detectSwaggerVersion data) as [version|e|] eqn:Hdetect; simpl;
      [| |done].
    + destruct (convertToOpenAPI3 data version) as [loaded|e|] eqn:Hconvert;
        simpl; [done| |done].
      intros [= <-]. rewrite !string_app_assoc. split; [apply names_middle|].
      right. right. by exists data, version, e.
    + intros [= <-]. rewrite !string_app_assoc. split; [apply names_middle|].
      right. left. by exists data, e.
  - intros [= <-]. rewrite !string_app_assoc. split; [apply names_middle|].
    left. by exists e.
Qed.

(** X13. A merger built by [New] from a configuration without servers stamps
    every document it processes with the four default servers, in order;
    and building a merger from a merger's configuration changes nothing. *)
Theorem New_default_servers_applied c :
  New (config (New c)) = New c ∧
  ∀ filePath doc,
    Servers c = None →
    processSwaggerFile (New c) filePath = Ok doc →
    (λ server, (Server_URL server, Server_Description server))
      <$> elems (T_Servers doc)
    = [ ("https://api-dev.domain.com", "Development Environment");
        ("https://api-test.domain.com", "Test Environment");
        ("https://api-stg.domain.com", "Staging Environment");
        ("https://api.domain.com", "Production Environment") ].
Proof.
  split.
  - unfold New. by destruct c as [inputs output [servers|]].
  - intros filePath doc Hnil
      (data & version & loaded & _ & _ & _ & ->)%processSwaggerFile_Ok_inv.
    unfold New. by rewrite Hnil.
Qed.

End pipeline_extras.

(** ** More on [Merge] and [GetStats] *)

Section run_extras.
Context {R : Refs} {L : Libs}.

Lemma process_inputs_complete m paths acc docs :
  Forall2 (λ filePath doc, processSwaggerFile m filePath = Ok doc) paths docs →
  process_inputs m paths acc = Ok (acc ++ docs).
Proof.
  intros Hall. revert acc. induction Hall as [|p doc paths docs Hp _ IH];
    intros acc; simpl.
  - by rewrite app_nil_r.
  - rewrite Hp. simpl. by rewrite IH, <-(assoc_L (++)).
Qed.

Lemma process_inputs_first_failure m before filePath after acc cause :
  Forall (λ earlier, ∃ doc, processSwaggerFile m earlier = Ok doc) before →
  processSwaggerFile m filePath = Err cause →
  process_inputs m (before ++ filePath :: after) acc
  = Err ("error processing " +:+ filePath +:+ ": " +:+ cause).
Proof.
  intros Hbefore Hfail. revert acc.
  induction Hbefore as [|p before [doc Hp] _ IH]; intros acc; simpl.
  - rewrite Hfail. simpl. by rewrite !string_app_assoc.
  - rewrite Hp. simpl. apply IH.
Qed.

(** X14. The inputs are processed in order and the run stops at the first one
    that fails: [Merge] (given an output path) and [GetStats] return the
    error of that input, prefixed with "error processing" and its path, and
    [Merge] writes nothing; inputs after it play no part. *)
Theorem Merge_first_failure m before filePath after cause :
  elems (InputPaths (config m)) = before ++ filePath :: after →
  Forall (λ earlier, ∃ doc, processSwaggerFile m earlier = Ok doc) before →
  processSwaggerFile m filePath = Err cause →
  (OutputPath (config m) ≠ "" →
   returned (Merge m)
   = Err ("error processing " +:+ filePath +:+ ": " +:+ cause)) ∧
  writes (Merge m) = [] ∧
  GetStats m = Err ("error processing " +:+ filePath +:+ ": " +:+ cause) ∧
  names ("error processing " +:+ filePath +:+ ": " +:+ cause) filePath.
Proof.
  intros Hinputs Hbefore Hfail.
  pose proof (process_inputs_first_failure m before filePath after [] cause
                Hbefore Hfail) as Hrun.
  assert (len (InputPaths (config m)) ≠ 0) as Hlen.
  { unfold len. rewrite Hinputs, length_app. simpl. lia. }
  split_and!.
  - intros Hout. unfold Merge. rewrite !bool_decide_eq_false_2 by done.
    by rewrite Hinputs, Hrun.
  - unfold Merge. rewrite (bool_decide_eq_false_2 _ Hlen).
    case_bool_decide; [done|]. by rewrite Hinputs, Hrun.
  - unfold GetStats. rewrite (bool_decide_eq_false_2 _ Hlen).
    by rewrite Hinputs, Hrun.
  - apply names_middle.
Qed.

Lemma Merge_after_marshal m docs merged out :
  elems (InputPaths (config m)) ≠ [] →
  OutputPath (config m) ≠ "" →
  Forall2 (λ filePath doc, processSwaggerFile m filePath = Ok doc)
          (elems (InputPaths (config m))) docs →
  mergeOpenAPI3 docs = Ok merged →
  yaml_Marshal merged = Success out →
  Merge m
  = {| returned :=
         match os_WriteFile (OutputPath (config m)) out with
         | Some msg => Err ("error writing file: " +:+ msg)
         | None => Ok ()
         end;
       writes := [(OutputPath (config m), out)] |}.
Proof.
  intros Hinputs Houtput Hdocs Hmerged Hout. unfold Merge.
  rewrite bool_decide_eq_false_2.
  2:{ unfold len. by destruct (elems (InputPaths (config m))). }
  rewrite bool_decide_eq_false_2 by done.
  rewrite (process_inputs_complete m _ [] docs Hdocs). simpl.
  rewrite Hmerged. simpl. by rewrite Hout.
Qed.

Lemma Merge_Ok_inv m :
  returned (Merge m) = Ok () →
  ∃ docs merged out,
    elems (InputPaths (config m)) ≠ [] ∧
    OutputPath (config m) ≠ "" ∧
    Forall2 (λ filePath doc, processSwaggerFile m filePath = Ok doc)
            (elems (InputPaths (config m))) docs ∧
    mergeOpenAPI3 docs = Ok merged ∧
    yaml_Marshal merged = Success out ∧
    os_WriteFile (OutputPath (config m)) out = None.
Proof.
  unfold Merge. case_bool_decide as Hlen; [done|].
  case_bool_decide as Hout; [done|].
  destruct (process_inputs m _ []) as [docs|e|] eqn:Hdocs; [|done..].
  apply process_inputs_Ok in Hdocs as (new & -> & Hnew). simpl.
  destruct (mergeOpenAPI3 new) as [merged|e|] eqn:Hmerged; simpl; [|done..].
  destruct (yaml_Marshal merged) as [out|e] eqn:Hout'; simpl; [|done].
  destruct (os_WriteFile (OutputPath (config m)) out) as [e|] eqn:Hwrite; [done|].
  intros _. exists new, merged, out. split_and!; try done.
  intros Hnil. unfold len in Hlen. by rewrite Hnil in Hlen.
Qed.

(** X15. [Merge] succeeds exactly when there is an input and an output path,
    every input processes, the merge returns, the result serialises and the
    write succeeds.  Whenever the steps before the write succeed, the
    serialisation is written to the output path, once, whether the write
    succeeds or not.  No run writes more than once, and the only error after
    which a write was attempted is the write error itself. *)
Theorem Merge_success m :
  (returned (Merge m) = Ok ()
   ↔ ∃ docs merged out,
       elems (InputPaths (config m)) ≠ [] ∧
       OutputPath (config m) ≠ "" ∧
       Forall2 (λ filePath doc, processSwaggerFile m filePath = Ok doc)
               (elems (InputPaths (config m))) docs ∧
       mergeOpenAPI3 docs = Ok merged ∧
       yaml_Marshal merged = Success out ∧
       os_WriteFile (OutputPath (config m)) out = None) ∧
  (∀ docs merged out,
     elems (InputPaths (config m)) ≠ [] →
     OutputPath (config m) ≠ "" →
     Forall2 (λ filePath doc, processSwaggerFile m filePath = Ok doc)
             (elems (InputPaths (config m))) docs →
     mergeOpenAPI3 docs = Ok merged →
     yaml_Marshal merged = Success out →
     writes (Merge m) = [(OutputPath (config m), out)]) ∧
  length (writes (Merge m)) ≤ 1 ∧
  (∀ msg, returned (Merge m) = Err msg → writes (Merge m) ≠ [] →
          ∃ cause, msg = "error writing file: " +:+ cause).
Proof.
  split_and!.
  - split; [apply Merge_Ok_inv|].
    intros (docs & merged & out & Hinputs & Houtput & Hdocs & Hmerged & Hout
            & Hwrite).
    rewrite (Merge_after_marshal m docs merged out) by done. simpl.
    by rewrite Hwrite.
  - intros docs merged out Hinputs Houtput Hdocs Hmerged Hout.
    by rewrite (Merge_after_marshal m docs merged out).
  - unfold Merge. repeat (case_match; simpl; try lia).
  - unfold Merge. intros msg.
    repeat (case_match; simpl; try done). intros [= <-] _. by eexists.
Qed.

(** X16. Whatever [Merge] writes goes to the output path and is the
    serialisation of a document in version 3.0.1 whose servers are the ones
    of the configuration, whatever the inputs declared: the merge takes both
    from the first processed document and no later step changes them. *)
Theorem Merge_writes_configured_header m path out :
  (path, out) ∈ writes (Merge m) →
  path = OutputPath (config m) ∧
  ∃ merged,
    yaml_Marshal merged = Success out ∧
    T_OpenAPI merged = "3.0.1" ∧
    T_Servers merged = Some (to_openapi3_server <$> elems (Servers (config m))).
Proof.
  unfold Merge. case_bool_decide as Hlen; [by intros ?%elem_of_nil|].
  case_bool_decide as Hout; [by intros ?%elem_of_nil|].
  destruct (process_inputs m _ []) as [docs|e|] eqn:Hdocs;
    [|by intros ?%elem_of_nil..].
  apply process_inputs_Ok in Hdocs as (new & -> & Hnew). simpl.
  destruct (mergeOpenAPI3 new) as [merged|e|] eqn:Hmerged; simpl;
    [|by intros ?%elem_of_nil..].
  destruct (yaml_Marshal merged) as [out'|e] eqn:Hout'; simpl;
    [|by intros ?%elem_of_nil].
  intros [= -> ->]%list_elem_of_singleton. split; [done|].
  exists merged. split; [done|].
  destruct Hnew as [|filePath first paths rest Hfirst _];
    [by unfold len in Hlen|].
  apply processSwaggerFile_Ok_inv in Hfirst
    as (data & version & loaded & _ & _ & _ & ->).
  destruct rest as [|doc rest].
  - by injection Hmerged as <-.
  - cbn [mergeOpenAPI3] in Hmerged. apply merge_loop_untouched in Hmerged.
    destruct Hmerged as (Hversion & _ & Hservers & _). by split.
Qed.

Lemma mergeOpenAPI3_schemas_size docs merged c :
  mergeOpenAPI3 docs = Ok merged →
  T_Components merged = Some c →
  maplen (Schemas c) = size (last_wins (component_map Schemas <$> docs)).
Proof.
  destruct docs as [|first [|doc rest]]; [done| |].
  - intros [= <-] Hc. unfold last_wins, component_map. simpl. rewrite Hc.
    unfold overlay. rewrite (right_id_L ∅ (∪)). by destruct (Schemas c).
  - cbn [mergeOpenAPI3]. intros Hm Hc.
    destruct (merge_loop_component_map Schemas _ _ _ _ ltac:(done) Hm)
      as (c' & Hc' & Hschemas).
    assert (c' = c) as -> by congruence. rewrite Hschemas.
    by rewrite (fmap_cons _ first), last_wins_cons.
Qed.

(** X17. The statistics [GetStats] returns are counted on the merged document:
    the number of inputs, the number of distinct path keys over all
    documents, the number of distinct schema names over all documents, and
    the total number of tags, repeated names counted each time. *)
Theorem GetStats_counts m stats :
  GetStats m = Ok stats →
  ∃ docs,
    Forall2 (λ filePath doc, processSwaggerFile m filePath = Ok doc)
            (elems (InputPaths (config m))) docs ∧
    stats !! "total_files" = Some (Z.of_nat (length docs)) ∧
    stats !! "total_paths"
      = Some (Z.of_nat (size (⋃ ((λ doc, dom (path_map doc)) <$> docs)
                              : gset string))) ∧
    stats !! "total_schemas"
      = Some (Z.of_nat (size (⋃ ((λ doc, dom (component_map Schemas doc)) <$> docs)
                              : gset string))) ∧
    stats !! "total_tags"
      = Some (Z.of_nat (sum_list ((λ doc, len (T_Tags doc)) <$> docs))).
Proof.
  unfold GetStats. case_bool_decide as Hlen; [done|].
  destruct (process_inputs m _ []) as [docs|e|] eqn:Hdocs; [|done..].
  apply process_inputs_Ok in Hdocs as (new & -> & Hnew). simpl.
  destruct (mergeOpenAPI3 new) as [merged|e|] eqn:Hmerged; simpl; [|done..].
  unfold stats_of. destruct (T_Components merged) as [c|] eqn:Hc; [|done].
  intros [= <-]. exists new. split; [done|].
  assert (len (InputPaths (config m)) = length new) as ->.
  { unfold len. by apply Forall2_length in Hnew. }
  assert (size (Paths_Map (T_Paths merged))
          = size (⋃ ((λ doc, dom (path_map doc)) <$> new) : gset string)) as ->.
  { change (Paths_Map (T_Paths merged)) with (path_map merged).
    rewrite (mergeOpenAPI3_path_map _ _ Hmerged).
    by rewrite <-size_dom, last_wins_dom, <-list_fmap_compose. }
  assert (maplen (Schemas c)
          = size (⋃ ((λ doc, dom (component_map Schemas doc)) <$> new)
                  : gset string)) as ->.
  { rewrite (mergeOpenAPI3_schemas_size _ _ _ Hmerged Hc).
    by rewrite <-size_dom, last_wins_dom, <-list_fmap_compose. }
  assert (len (T_Tags merged) = sum_list ((λ doc, len (T_Tags doc)) <$> new))
    as ->.
  { unfold len. rewrite (mergeOpenAPI3_tags_elems _ _ Hmerged), length_join.
    by rewrite <-list_fmap_compose. }
  split_and!; by simplify_map_eq.
Qed.

(** X18. After a successful [Merge], [GetStats] on the same merger returns
    statistics, with one exception: a single input whose document has no
    components object, on which [Merge] succeeds and [GetStats] panics. *)
Theorem Merge_then_GetStats m :
  returned (Merge m) = Ok () →
  (∃ stats, GetStats m = Ok stats) ∨
  (GetStats m = Panic ∧
   ∃ filePath doc, elems (InputPaths (config m)) = [filePath] ∧
                   processSwaggerFile m filePath = Ok doc ∧
                   T_Components doc = None).
Proof.
  unfold Merge, GetStats. case_bool_decide as Hlen; [done|].
  case_bool_decide as Hout; [done|].
  destruct (process_inputs m _ []) as [docs|e|] eqn:Hdocs; [|done..].
  apply process_inputs_Ok in Hdocs as (new & -> & Hnew). simpl.
  destruct (mergeOpenAPI3 new) as [merged|e|] eqn:Hmerged; simpl; [|done..].
  intros _. unfold stats_of.
  destruct (T_Components merged) as [c|] eqn:Hc; [left; by eexists|].
  right. split; [done|].
  destruct new as [|first [|doc rest]]; [done| |].
  - injection Hmerged as ->.
    destruct (elems (InputPaths (config m))) as [|p [|p' ps]] eqn:Hinputs;
      [by inversion Hnew| |by inversion Hnew as [|???? _ Hrest]; inversion Hrest].
    exists p, merged. split; [done|]. split; [|done]. by inversion Hnew.
  - cbn [mergeOpenAPI3] in Hmerged.
    destruct (merge_loop_component_map Schemas _ _ _ _ ltac:(done) Hmerged)
      as (c' & Hc' & _). congruence.
Qed.

End run_extras.

(** ** [MergeFromDirectory] *)

Section directory_extras.
Context {R : Refs} {L : Libs} {F : Files}.

Lemma walk_Success pattern visits acc :
  Forall (λ v, visit_error pattern v = None) visits →
  walk pattern visits acc = Success (acc ++ (filter (selects pattern) visits).*1).
Proof.
  intros Hall. revert acc. induction Hall as [|[path info] visits Hv _ IH];
    intros acc; simpl.
  - by rewrite app_nil_r.
  - unfold visit_error, selects, visit in *. simpl in *.
    destruct info as [[|]|err]; [| |done].
    + rewrite IH. by rewrite filter_cons_False by (simpl; by intros ?).
    + destruct (filepath_Match pattern (filepath_Base path)) as [[|]|err] eqn:Hm;
        [| |done].
      * rewrite IH, filter_cons_True by (simpl; by rewrite Hm).
        by rewrite <-(assoc_L (++)).
      * rewrite IH. by rewrite filter_cons_False by (simpl; rewrite Hm; by intros ?).
Qed.

Lemma walk_Failure pattern before v after acc err :
  Forall (λ v, visit_error pattern v = None) before →
  visit_error pattern v = Some err →
  walk pattern (before ++ v :: after) acc = Failure err.
Proof.
  intros Hbefore Hv. revert acc.
  induction Hbefore as [|[path info] before Hb _ IH]; intros acc; simpl.
  - destruct v as [path info]. unfold visit_error, visit in *. simpl in *.
    destruct info as [[|]|e]; [done| |by injection Hv as ->].
    destruct (filepath_Match pattern (filepath_Base path)) as [m|e]; [done|].
    by injection Hv as ->.
  - unfold visit_error, visit in *. simpl in *.
    destruct info as [[|]|e]; [apply IH| |done].
    destruct (filepath_Match pattern (filepath_Base path)) as [m|e]; [apply IH|done].
Qed.

(** X19. When no visit of the walk raises an error, [MergeFromDirectory] selects
    the visited paths that are not directories and whose base name matches
    the pattern, in the order of the walk.  If there is none it returns an
    error naming the directory and the pattern, writes nothing and leaves
    the merger as it was; otherwise it is [Merge] on the selected files,
    with the merger's output path and servers, and it leaves the merger with
    those files as its inputs, whether the merge succeeds or not. *)
Theorem MergeFromDirectory_selects m inputDir pattern :
  Forall (λ v, visit_error pattern v = None) (filepath_Walk inputDir) →
  MergeFromDirectory m inputDir pattern
  = match (filter (selects pattern) (filepath_Walk inputDir)).*1 with
    | [] =>
        ({| returned := Err ("no swagger files found in " +:+ inputDir
                             +:+ " with pattern " +:+ pattern);
            writes := [] |}, m)
    | swaggerFiles =>
        (Merge (set_InputPaths m swaggerFiles), set_InputPaths m swaggerFiles)
    end.
Proof.
  intros Hall. unfold MergeFromDirectory.
  rewrite (walk_Success _ _ [] Hall). simpl.
  by destruct ((filter (selects pattern) (filepath_Walk inputDir)).*1).
Qed.

(** X20. The first error of the walk, an unreadable entry or a pattern the match
    rejects on a file, aborts [MergeFromDirectory]: it returns "error finding
    files" with that error, processes no file, writes nothing and leaves the
    merger as it was, files selected before the error included. *)
Theorem MergeFromDirectory_walk_error m inputDir pattern before v after err :
  filepath_Walk inputDir = before ++ v :: after →
  Forall (λ v, visit_error pattern v = None) before →
  visit_error pattern v = Some err →
  MergeFromDirectory m inputDir pattern
  = ({| returned := Err ("error finding files: " +:+ err); writes := [] |}, m).
Proof.
  intros Hwalk Hbefore Hv. unfold MergeFromDirectory.
  by rewrite Hwalk, (walk_Failure _ _ _ _ [] _ Hbefore Hv).
Qed.

End directory_extras.

(** ** The server list of the command line *)

Lemma string_app_cons (c : ascii) (a b : string) :
  String c a +:+ b = String c (a +:+ b).
Proof. reflexivity. Qed.

Lemma string_length_app (a b : string) :
  String.length (a +:+ b) = String.length a + String.length b.
Proof.
  induction a as [|c a IH]; [reflexivity|].
  rewrite string_app_cons. simpl. by rewrite IH.
Qed.

Lemma substring_all (s : string) : String.substring 0 (String.length s) s = s.
Proof. induction s as [|c s IH]; simpl; [done|]. by rewrite IH. Qed.

Lemma substring_app_l (a s : string) :
  String.substring 0 (String.length a) (a +:+ s) = a.
Proof.
  induction a as [|c a IH]; [simpl; by destruct s|].
  rewrite string_app_cons. simpl. by rewrite IH.
Qed.

Lemma substring_app_r (a b : string) (c : ascii) :
  String.substring (String.length a + 1) (String.length b) (a +:+ String c b) = b.
Proof.
  induction a as [|x a IH].
  - change ("" +:+ String c b) with (String c b). simpl. apply substring_all.
  - rewrite string_app_cons. simpl. apply IH.
Qed.

Lemma LastIndex_lower (s : string) (sep : ascii) : (-1 ≤ strings.LastIndex s sep)%Z.
Proof.
  induction s as [|c s IH]; simpl; [lia|].
  destruct (0 <=? strings.LastIndex s sep)%Z eqn:Hi; [lia|].
  destruct (Ascii.eqb c sep); lia.
Qed.

Lemma LastIndex_app (a b : string) (sep : ascii) :
  strings.LastIndex b sep = (-1)%Z →
  strings.LastIndex (a +:+ String sep b) sep = Z.of_nat (String.length a).
Proof.
  intros Hb. induction a as [|c a IH].
  - change ("" +:+ String sep b) with (String sep b). simpl.
    rewrite Hb. simpl. by rewrite Ascii.eqb_refl.
  - rewrite string_app_cons. cbn [strings.LastIndex String.length].
    rewrite IH. destruct (0 <=? Z.of_nat (String.length a))%Z eqn:Hi; lia.
Qed.

Lemma Split_no_separator (s : string) (sep : ascii) :
  strings.LastIndex s sep = (-1)%Z → strings.Split s sep = [s].
Proof.
  induction s as [|c s IH]; [done|]. cbn [strings.LastIndex strings.Split].
  pose proof (LastIndex_lower s sep).
  destruct (0 <=? strings.LastIndex s sep)%Z eqn:Hi; [lia|].
  destruct (Ascii.eqb c sep); [done|]. intros _. rewrite IH; [done|lia].
Qed.

(** The loop body on an entry with a colon strictly inside it. *)
Lemma server_entry_at_last_colon (a b : string) :
  a ≠ "" → b ≠ "" →
  strings.LastIndex b ":" = (-1)%Z →
  strings.HasSuffix a "//" = false →
  server_entry (a +:+ ":" +:+ b)
  = {| URL := strings.TrimSpace a; Description := strings.TrimSpace b |}.
Proof.
  intros Ha Hb Hcolon Hsuffix. unfold server_entry.
  change (":" +:+ b) with (String ":" b).
  rewrite (LastIndex_app a b ":" Hcolon), string_length_app. cbn [String.length].
  assert (0 < String.length a) by (destruct a; [done|simpl; lia]).
  assert (0 < String.length b) by (destruct b; [done|simpl; lia]).
  rewrite Nat2Z.id, substring_app_l, Hsuffix. cbn [negb].
  replace (String.length a + S (String.length b) - (String.length a + 1))
    with (String.length b) by lia.
  rewrite substring_app_r.
  rewrite (proj2 (Z.ltb_lt 0 _)) by lia.
  by rewrite (proj2 (Z.ltb_lt _ _)) by lia.
Qed.

(** X21. A [--servers] flag made of one entry whose text, trimmed, is [a:b]
    with a colon strictly inside it gives one server, split at the last
    colon: the text before it, trimmed, is the URL and the text after it,
    trimmed, the description, unless the text before ends with "//".  The
    colon of the scheme counts: an entry [scheme://host] with no other colon
    gives the URL [scheme] and the description [//host]. *)
Theorem server_entry_split (servers a b : string) :
  strings.LastIndex servers "," = (-1)%Z →
  strings.TrimSpace servers = a +:+ ":" +:+ b →
  a ≠ "" → b ≠ "" →
  strings.LastIndex b ":" = (-1)%Z →
  strings.HasSuffix a "//" = false →
  server_configs servers
  = Some [ {| URL := strings.TrimSpace a; Description := strings.TrimSpace b |} ].
Proof.
  intros Hcomma Htrim Ha Hb Hcolon Hsuffix. unfold server_configs.
  assert (a +:+ ":" +:+ b ≠ "") as Hentry by (by destruct a).
  assert (servers ≠ "") as Hflag by (intros ->; by rewrite <-Htrim in Hentry).
  rewrite (bool_decide_eq_true_2 (servers ≠ "")) by done.
  rewrite (Split_no_separator _ _ Hcomma). cbn [server_loop]. rewrite Htrim.
  rewrite (bool_decide_eq_false_2 (a +:+ ":" +:+ b = "")) by done.
  by rewrite (server_entry_at_last_colon a b Ha Hb Hcolon Hsuffix).
Qed.

(** X22. An entry is kept whole as the URL, with the description "API Server",
    when it has no colon, when its last colon is its last byte, and when
    the text before its last colon ends with "//". *)
Theorem server_entry_default_description :
  (∀ server, strings.LastIndex server ":" = (-1)%Z →
             server_entry server = {| URL := server; Description := "API Server" |}) ∧
  (∀ a, server_entry (a +:+ ":")
        = {| URL := a +:+ ":"; Description := "API Server" |}) ∧
  (∀ a b, strings.LastIndex b ":" = (-1)%Z →
          strings.HasSuffix a "//" = true →
          server_entry (a +:+ ":" +:+ b)
          = {| URL := a +:+ ":" +:+ b; Description := "API Server" |}).
Proof.
  split_and!.
  - intros server Hcolon. unfold server_entry. by rewrite Hcolon.
  - intros a. unfold server_entry.
    rewrite (LastIndex_app a "" ":" eq_refl), string_length_app. simpl.
    rewrite (proj2 (Z.ltb_ge _ (Z.of_nat (String.length a + 1) - 1))) by lia.
    by rewrite andb_false_r.
  - intros a b Hcolon Hsuffix. unfold server_entry.
    change (":" +:+ b) with (String ":" b).
    rewrite (LastIndex_app a b ":" Hcolon), Nat2Z.id, substring_app_l, Hsuffix.
    simpl. by destruct (_ && _).
Qed.

Lemma server_loop_entries serverList serverConfigs :
  server_loop serverList serverConfigs
  = append serverConfigs
      (server_entry <$> filter (λ server, server ≠ "")
                               (strings.TrimSpace <$> serverList)).
Proof.
  revert serverConfigs.
  induction serverList as [|server serverList IH]; intros serverConfigs; [done|].
  cbn [server_loop]. rewrite fmap_cons. case_bool_decide as Hblank.
  - rewrite filter_cons_False by (by intros ?). apply IH.
  - rewrite filter_cons_True by done. rewrite IH, fmap_cons.
    destruct (server_entry <$> filter _ _) as [|entry entries] eqn:Hrest; [done|].
    simpl. by rewrite <-(assoc_L (++)).
Qed.

(** X23. The server configuration of the command line holds one server for each
    comma-separated entry of the flag that is not blank, in order; when
    there is none, the flag being empty or made of blank entries only, it is
    the default list.  It is never empty, and [New] keeps it as it is. *)
Theorem server_configs_never_empty servers :
  server_configs servers
  = match server_entry <$> filter (λ server, server ≠ "")
                                  (strings.TrimSpace <$> strings.Split servers ",") with
    | [] => DefaultServers
    | entries => Some entries
    end ∧
  elems (server_configs servers) ≠ [] ∧
  ∀ inputs output,
    Servers (config (New {| InputPaths := inputs; OutputPath := output;
                            Servers := server_configs servers |}))
    = server_configs servers.
Proof.
  assert (server_configs servers
          = match server_entry <$> filter (λ server, server ≠ "")
                     (strings.TrimSpace <$> strings.Split servers ",") with
            | [] => DefaultServers
            | entries => Some entries
            end) as Hspec.
  { unfold server_configs. destruct (decide (servers = "")) as [->|Hflag].
    - reflexivity.
    - rewrite (bool_decide_eq_true_2 (servers ≠ "")) by done.
      rewrite server_loop_entries.
      by destruct (server_entry <$> filter _ _). }
  split; [done|]. rewrite Hspec.
  destruct (server_entry <$> filter _ _) as [|entry entries]; by split.
Qed.

(** ** The input list of the command line *)

Section input_extras.
Context {R : Refs} {L : Libs} {F : Files}.

Lemma matches_any_single pattern name :
  matches_any [pattern] name
  = match filepath_Match pattern name with
    | Success matched => matched
    | Failure _ => false
    end.
Proof. simpl. by destruct (filepath_Match pattern name) as [[|]|]. Qed.

Lemma scan_single pattern visits acc :
  Forall (λ v, visit_error pattern v = None) visits →
  scan [pattern] visits acc = acc ++ (filter (selects pattern) visits).*1.
Proof.
  intros Hall. revert acc. induction Hall as [|[path info] visits Hv _ IH];
    intros acc.
  - simpl. by rewrite app_nil_r.
  - cbn [scan]. unfold visit_error, selects in *. simpl in Hv.
    destruct info as [[|]|err]; [| |done].
    + rewrite IH. by rewrite filter_cons_False by (simpl; by intros ?).
    + rewrite matches_any_single.
      destruct (filepath_Match pattern (filepath_Base path)) as [[|]|err] eqn:Hm;
        [| |done].
      * rewrite IH, filter_cons_True by (simpl; by rewrite Hm).
        by rewrite <-(assoc_L (++)).
      * rewrite IH. by rewrite filter_cons_False by (simpl; rewrite Hm; by intros ?).
Qed.

Lemma scan_single_error pattern before path err after acc :
  Forall (λ v, visit_error pattern v = None) before →
  scan [pattern] (before ++ (path, Failure err) :: after) acc
  = acc ++ (filter (selects pattern) before).*1.
Proof.
  intros Hbefore. revert acc.
  induction Hbefore as [|[p info] before Hv _ IH]; intros acc.
  - simpl. by rewrite app_nil_r.
  - cbn [app scan]. unfold visit_error, selects in *. simpl in Hv.
    destruct info as [[|]|e]; [| |done].
    + rewrite IH. by rewrite filter_cons_False by (simpl; by intros ?).
    + rewrite matches_any_single.
      destruct (filepath_Match pattern (filepath_Base p)) as [[|]|e] eqn:Hm;
        [| |done].
      * rewrite IH, filter_cons_True by (simpl; by rewrite Hm).
        by rewrite <-(assoc_L (++)).
      * rewrite IH. by rewrite filter_cons_False by (simpl; rewrite Hm; by intros ?).
Qed.

(** X24. For one directory and one pattern, given without surrounding blanks,
    the command line collects the files that [MergeFromDirectory] selects,
    when no visit of the walk raises an error: both then run [Merge] on the
    same inputs. *)
Theorem input_paths_agree_with_MergeFromDirectory m inputDir pattern :
  strings.TrimSpace inputDir = inputDir → inputDir ≠ "" →
  strings.LastIndex inputDir "," = (-1)%Z →
  strings.TrimSpace pattern = pattern →
  strings.LastIndex pattern "," = (-1)%Z →
  os_Stat inputDir = Success true →
  Forall (λ v, visit_error pattern v = None) (filepath_Walk inputDir) →
  input_paths inputDir pattern
    = (filter (selects pattern) (filepath_Walk inputDir)).*1 ∧
  (input_paths inputDir pattern ≠ [] →
   MergeFromDirectory m inputDir pattern
   = (Merge (set_InputPaths m (input_paths inputDir pattern)),
      set_InputPaths m (input_paths inputDir pattern))).
Proof.
  intros Hdir Hne Hcomma Hpattern Hpcomma Hstat Hall.
  assert (input_paths inputDir pattern
          = (filter (selects pattern) (filepath_Walk inputDir)).*1) as Hpaths.
  { unfold input_paths.
    rewrite (Split_no_separator _ _ Hcomma), (Split_no_separator _ _ Hpcomma).
    cbn [fmap list_fmap collect_inputs]. rewrite Hdir, Hpattern.
    rewrite bool_decide_eq_false_2 by done. rewrite Hstat.
    by rewrite (scan_single _ _ [] Hall). }
  split; [done|]. rewrite Hpaths. intros Hfiles.
  unfold MergeFromDirectory. rewrite (walk_Success _ _ [] Hall). simpl.
  by destruct ((filter (selects pattern) (filepath_Walk inputDir)).*1).
Qed.

(** X25. The command line is more lenient than [MergeFromDirectory].  A file
    named as an input is taken whatever the pattern.  When the walk of a
    directory meets an unreadable entry, the command line keeps the files
    collected before it and goes on, where [MergeFromDirectory] gives up
    with an error. *)
Theorem input_paths_lenient m inputDir pattern :
  strings.TrimSpace inputDir = inputDir → inputDir ≠ "" →
  strings.LastIndex inputDir "," = (-1)%Z →
  strings.TrimSpace pattern = pattern →
  strings.LastIndex pattern "," = (-1)%Z →
  (os_Stat inputDir = Success false → input_paths inputDir pattern = [inputDir]) ∧
  (∀ before path err after,
     os_Stat inputDir = Success true →
     filepath_Walk inputDir = before ++ (path, Failure err) :: after →
     Forall (λ v, visit_error pattern v = None) before →
     input_paths inputDir pattern = (filter (selects pattern) before).*1 ∧
     MergeFromDirectory m inputDir pattern
     = ({| returned := Err ("error finding files: " +:+ err); writes := [] |}, m)).
Proof.
  intros Hdir Hne Hcomma Hpattern Hpcomma.
  assert (∀ isDir, os_Stat inputDir = Success isDir →
            input_paths inputDir pattern
            = if isDir then scan [pattern] (filepath_Walk inputDir) []
              else [inputDir]) as Hpaths.
  { intros isDir Hstat. unfold input_paths.
    rewrite (Split_no_separator _ _ Hcomma), (Split_no_separator _ _ Hpcomma).
    cbn [fmap list_fmap collect_inputs]. rewrite Hdir, Hpattern.
    rewrite bool_decide_eq_false_2 by done. rewrite Hstat. by destruct isDir. }
  split.
  - intros Hstat. by rewrite (Hpaths _ Hstat).
  - intros before path err after Hstat Hwalk Hbefore. split.
    + rewrite (Hpaths _ Hstat), Hwalk.
      by rewrite (scan_single_error _ _ _ _ _ [] Hbefore).
    + unfold MergeFromDirectory.
      by rewrite Hwalk, (walk_Failure _ _ (path, Failure err) _ [] err Hbefore).
Qed.

End input_extras.

(** ** The further properties on the sample documents and environment *)

Lemma mergeOpenAPI3_panics_iff_witness :
  mergeOpenAPI3 [sample.loaded_bare; sample.loaded_a] = Panic.
Proof.
  apply (mergeOpenAPI3_panics_iff [sample.loaded_bare; sample.loaded_a]).
  - simpl. lia.
  - exists sample.loaded_bare. split; [apply list_elem_of_here|reflexivity].
Defined.

(** [Error] is declared by both documents: the schema of [payments], the
    later one, is kept; three schema names in all. *)
Lemma mergeOpenAPI3_components_witness :
  ∃ merged c,
    mergeOpenAPI3 [sample_components.catalog; sample_components.payments]
      = Ok merged ∧
    T_Components merged = Some c ∧
    mapindex (Schemas c) "Error" = Some "payments#Error" ∧
    maplen (Schemas c) = 3.
Proof.
  eexists.
  edestruct (mergeOpenAPI3_components
               [sample_components.catalog; sample_components.payments])
    as (c & Hc & Hschemas & _); [simpl; lia|vm_compute; reflexivity|].
  exists c. split; [reflexivity|]. split; [exact Hc|].
  rewrite Hschemas. split; vm_compute; reflexivity.
Defined.

Lemma mergeOpenAPI3_keeps_first_witness :
  ∃ merged,
    mergeOpenAPI3 [sample_components.catalog; sample_components.payments]
      = Ok merged ∧
    T_Info merged = T_Info sample_components.catalog.
Proof.
  eexists. split; [vm_compute; reflexivity|].
  eapply (mergeOpenAPI3_keeps_first sample_components.catalog
            [sample_components.payments]).
  vm_compute. reflexivity.
Defined.

(** The [oauth] scheme of [payments] is not in the merged document. *)
Lemma mergeOpenAPI3_drops_later_security_witness :
  ∃ merged,
    mergeOpenAPI3 [sample_components.catalog; sample_components.payments]
      = Ok merged ∧
    SecuritySchemes <$> T_Components merged
    = Some (Some {["apiKey" := "catalog#apiKey"]}).
Proof.
  eexists. split; [vm_compute; reflexivity|].
  edestruct (mergeOpenAPI3_drops_later_security sample_components.catalog
               [sample_components.payments]) as (Hsecurity & _);
    [vm_compute; reflexivity|].
  rewrite Hsecurity. vm_compute. reflexivity.
Defined.

Lemma mergeOpenAPI3_nil_fields_witness :
  ∃ merged,
    mergeOpenAPI3 [sample_components.payments; sample.loaded_schemas]
      = Ok merged ∧
    T_Paths merged = None ∧ T_Tags merged = None.
Proof.
  eexists. split; [vm_compute; reflexivity|].
  edestruct (mergeOpenAPI3_nil_fields sample_components.payments
               [sample.loaded_schemas]) as [Hpaths Htags];
    [vm_compute; reflexivity|].
  split.
  - apply Hpaths. repeat constructor.
  - apply Htags. split; [reflexivity|]. repeat constructor.
Defined.

(** Blanks around the entry and around its colon are dropped; an entry
    without description is split at the colon of its scheme. *)
Lemma server_entry_split_witness :
  server_configs " https://api.com : Production "
    = Some [ {| URL := "https://api.com"; Description := "Production" |} ] ∧
  server_configs "https://api.com"
    = Some [ {| URL := "https"; Description := "//api.com" |} ].
Proof.
  split.
  - apply (server_entry_split " https://api.com : Production "
             "https://api.com " " Production").
    + reflexivity.
    + reflexivity.
    + discriminate.
    + discriminate.
    + reflexivity.
    + reflexivity.
  - apply (server_entry_split "https://api.com" "https" "//api.com").
    + reflexivity.
    + reflexivity.
    + discriminate.
    + discriminate.
    + reflexivity.
    + reflexivity.
Defined.

Lemma server_entry_default_description_witness :
  server_entry "localhost"
    = {| URL := "localhost"; Description := "API Server" |} ∧
  server_entry "https://api.com:"
    = {| URL := "https://api.com:"; Description := "API Server" |} ∧
  server_entry "proxy//:internal"
    = {| URL := "proxy//:internal"; Description := "API Server" |}.
Proof.
  destruct server_entry_default_description as (Hnone & Hlast & Hslashes).
  split; [apply (Hnone "localhost"); reflexivity|].
  split; [apply (Hlast "https://api.com")|].
  apply (Hslashes "proxy//" "internal"); reflexivity.
Defined.

(** An entry without description is split at the colon of its scheme, and
    one with a port at the colon of the port. *)
Example server_entry_url_only :
  server_configs "https://api.com"
    = Some [ {| URL := "https"; Description := "//api.com" |} ] ∧
  server_configs "http://localhost:8080"
    = Some [ {| URL := "http://localhost"; Description := "8080" |} ] ∧
  server_configs "https://api-dev.com:Development, http://localhost:8080:Local"
    = Some [ {| URL := "https://api-dev.com"; Description := "Development" |};
             {| URL := "http://localhost:8080"; Description := "Local" |} ].
Proof. split_and!; vm_compute; reflexivity. Qed.

Section extra_examples.
#[local] Existing Instance sample.refs.
#[local] Existing Instance sample.libs.

Lemma detectSwaggerVersion_swagger_first_witness :
  detectSwaggerVersion sample.swagger2_json
  = Ok {| Version := "2.0"; IsYAML := true |}.
Proof.
  destruct (detectSwaggerVersion_swagger_first sample.swagger2_json
              (yaml_Unmarshal sample.swagger2_json None).1
              (yaml_Unmarshal sample.swagger2_json None).2
              (surjective_pairing _)) as [Hswagger _].
  apply (Hswagger (sample.Str "2.0")); vm_compute; reflexivity.
Defined.

(** [notes.yaml] decodes as YAML with neither key and is not JSON. *)
Lemma detectSwaggerVersion_unknown_witness :
  detectSwaggerVersion sample.notes_yaml
  = Err "unable to detect swagger/openapi version".
Proof.
  apply (detectSwaggerVersion_unknown sample.notes_yaml
           (yaml_Unmarshal sample.notes_yaml None).1
           (yaml_Unmarshal sample.notes_yaml None).2
           (json_Unmarshal sample.notes_yaml
              (yaml_Unmarshal sample.notes_yaml None).1).1
           (json_Unmarshal sample.notes_yaml
              (yaml_Unmarshal sample.notes_yaml None).1).2).
  - apply surjective_pairing.
  - apply surjective_pairing.
  - split.
    + right. split; vm_compute; reflexivity.
    + left. vm_compute. eexists. reflexivity.
Defined.

(** [legacy.yaml] is a Swagger 2 document in YAML: it is re-encoded,
    parsed and converted; [api-a.yaml] goes to the loader. *)
Lemma convertToOpenAPI3_branches_witness :
  convertToOpenAPI3 sample.api_a_yaml {| Version := "3.0.0"; IsYAML := true |}
    = returns (LoadFromData sample.api_a_yaml) ∧
  ∃ doc json doc2,
    convertToOpenAPI3 sample.legacy_yaml {| Version := "2.0"; IsYAML := true |}
      = Ok doc ∧
    openapi2_UnmarshalJSON json = Success doc2 ∧
    openapi2conv_ToV3 doc2 = Success doc.
Proof.
  split.
  - destruct (convertToOpenAPI3_branches sample.api_a_yaml
                {| Version := "3.0.0"; IsYAML := true |}) as [Hloader _].
    apply Hloader. reflexivity.
  - destruct (convertToOpenAPI3 sample.legacy_yaml
                {| Version := "2.0"; IsYAML := true |}) as [doc| |] eqn:Hdoc;
      [|vm_compute in Hdoc; discriminate..].
    destruct (convertToOpenAPI3_branches sample.legacy_yaml
                {| Version := "2.0"; IsYAML := true |}) as [_ Hswagger2].
    apply Hswagger2 in Hdoc as (json & doc2 & _ & Hparse & Hconvert);
      [|reflexivity].
    exists doc, json, doc2. split; [reflexivity|]. split; assumption.
Defined.

Lemma readDataFromPath_file_witness :
  readDataFromPath "api-a.yaml" = Ok sample.api_a_yaml ∧
  readDataFromPath "missing.yaml"
  = Err ("failed to read file missing.yaml: "
         +:+ "open missing.yaml: no such file or directory").
Proof.
  split.
  - apply (readDataFromPath_file "api-a.yaml"); reflexivity.
  - apply (readDataFromPath_file "missing.yaml"); reflexivity.
Defined.

Lemma processSwaggerFile_keeps_content_witness :
  ∃ doc data version loaded,
    processSwaggerFile (sample.merger_for ["api-a.yaml"]) "api-a.yaml" = Ok doc ∧
    readDataFromPath "api-a.yaml" = Ok data ∧
    convertToOpenAPI3 data version = Ok loaded ∧
    T_Paths doc = T_Paths loaded ∧
    T_Components doc = T_Components loaded.
Proof.
  eexists.
  edestruct (processSwaggerFile_keeps_content
               (sample.merger_for ["api-a.yaml"]) "api-a.yaml")
    as (data & version & loaded & Hread & _ & Hloaded & Hpaths & Hcomponents & _);
    [vm_compute; reflexivity|].
  exists data, version, loaded.
  split; [reflexivity|]. split; [exact Hread|]. split; [exact Hloaded|].
  split; [exact Hpaths|exact Hcomponents].
Defined.

Lemma processSwaggerFile_error_witness :
  ∃ msg,
    processSwaggerFile (sample.merger_for ["notes.yaml"]) "notes.yaml" = Err msg ∧
    names msg "notes.yaml".
Proof.
  eexists. split; [vm_compute; reflexivity|].
  eapply (processSwaggerFile_error (sample.merger_for ["notes.yaml"])).
  vm_compute. reflexivity.
Defined.

(** The second of three inputs does not exist: the error is about it, and
    the third input plays no part. *)
Lemma Merge_first_failure_witness :
  returned (Merge (sample.merger_for ["api-a.yaml"; "missing.yaml"; "notes.yaml"]))
  = Err ("error processing missing.yaml: failed to read missing.yaml: "
         +:+ "failed to read file missing.yaml: "
         +:+ "open missing.yaml: no such file or directory").
Proof.
  apply (Merge_first_failure
           (sample.merger_for ["api-a.yaml"; "missing.yaml"; "notes.yaml"])
           ["api-a.yaml"] "missing.yaml" ["notes.yaml"]).
  - reflexivity.
  - constructor; [|constructor]. eexists. vm_compute. reflexivity.
  - vm_compute. reflexivity.
  - discriminate.
Defined.

Lemma GetStats_counts_witness :
  ∃ stats,
    GetStats (sample.merger_for ["api-a.yaml"; "legacy.yaml"]) = Ok stats ∧
    stats !! "total_files" = Some 2%Z.
Proof.
  eexists. split; [vm_compute; reflexivity|].
  edestruct (GetStats_counts (sample.merger_for ["api-a.yaml"; "legacy.yaml"]))
    as (docs & Hdocs & Hfiles & _); [vm_compute; reflexivity|].
  rewrite Hfiles. apply Forall2_length in Hdocs. rewrite <-Hdocs. reflexivity.
Defined.

(** Without servers in the configuration, [api-a.yaml] comes out with the
    four default servers. *)
Lemma New_default_servers_applied_witness :
  ∃ doc,
    processSwaggerFile
      (New {| InputPaths := Some ["api-a.yaml"]; OutputPath := "merged.yaml";
              Servers := None |}) "api-a.yaml" = Ok doc ∧
    Server_URL <$> elems (T_Servers doc)
    = [ "https://api-dev.domain.com"; "https://api-test.domain.com";
        "https://api-stg.domain.com"; "https://api.domain.com" ].
Proof.
  eexists. split; [vm_compute; reflexivity|].
  destruct (New_default_servers_applied
              {| InputPaths := Some ["api-a.yaml"]; OutputPath := "merged.yaml";
                 Servers := None |}) as [_ Hservers].
  match goal with
  | |- Server_URL <$> elems (T_Servers ?doc) = _ =>
      specialize (Hservers "api-a.yaml" doc eq_refl)
  end.
  apply (f_equal (fmap fst)) in Hservers; [|vm_compute; reflexivity].
  rewrite <-list_fmap_compose in Hservers. exact Hservers.
Defined.

(** Two readable inputs merge and are written; without an output path
    nothing is. *)
Lemma Merge_success_witness :
  returned (Merge (sample.merger_for ["api-a.yaml"; "legacy.yaml"])) = Ok () ∧
  length (writes (Merge (sample.merger_for ["api-a.yaml"; "legacy.yaml"]))) = 1.
Proof.
  assert (returned (Merge (sample.merger_for ["api-a.yaml"; "legacy.yaml"]))
          = Ok ()) as Hok by (vm_compute; reflexivity).
  split; [exact Hok|].
  destruct (Merge_success (sample.merger_for ["api-a.yaml"; "legacy.yaml"]))
    as (Hiff & Hwrites & _).
  apply Hiff in Hok
    as (docs & merged & out & Hinputs & Houtput & Hdocs & Hmerged & Hout & _).
  rewrite (Hwrites docs merged out Hinputs Houtput Hdocs Hmerged Hout).
  reflexivity.
Defined.

(** [legacy.yaml] declares a host of its own; merged after [api-a.yaml],
    what is written still carries the servers of the configuration. *)
Lemma Merge_writes_configured_header_witness :
  ∃ out merged,
    writes (Merge (sample.merger_for ["api-a.yaml"; "legacy.yaml"]))
    = [("merged.yaml", out)] ∧
    yaml_Marshal merged = Success out ∧
    T_OpenAPI merged = "3.0.1" ∧
    T_Servers merged = Some (to_openapi3_server <$> sample.custom_servers).
Proof.
  exists "openapi: 3.0.1".
  assert (writes (Merge (sample.merger_for ["api-a.yaml"; "legacy.yaml"]))
          = [("merged.yaml", "openapi: 3.0.1")]) as Hwrites
    by (vm_compute; reflexivity).
  destruct (Merge_writes_configured_header
              (sample.merger_for ["api-a.yaml"; "legacy.yaml"])
              "merged.yaml" "openapi: 3.0.1")
    as (_ & merged & Hout & Hversion & Hservers).
  - rewrite Hwrites. apply list_elem_of_here.
  - exists merged. split; [exact Hwrites|]. split; [exact Hout|].
    split; [exact Hversion|exact Hservers].
Defined.

(** [bare.yaml] has no components object: [Merge] succeeds on it and
    [GetStats] panics; on [api-a.yaml] both succeed. *)
Lemma Merge_then_GetStats_witness :
  returned (Merge (sample.merger_for ["bare.yaml"])) = Ok () ∧
  GetStats (sample.merger_for ["bare.yaml"]) = Panic ∧
  ((∃ stats, GetStats (sample.merger_for ["api-a.yaml"]) = Ok stats) ∨
   (GetStats (sample.merger_for ["api-a.yaml"]) = Panic ∧
    ∃ filePath doc,
      elems (InputPaths (config (sample.merger_for ["api-a.yaml"]))) = [filePath] ∧
      processSwaggerFile (sample.merger_for ["api-a.yaml"]) filePath = Ok doc ∧
      T_Components doc = None)).
Proof.
  split; [vm_compute; reflexivity|]. split; [vm_compute; reflexivity|].
  apply (Merge_then_GetStats (sample.merger_for ["api-a.yaml"])).
  vm_compute. reflexivity.
Defined.

End extra_examples.

Section directory_examples.
#[local] Existing Instance sample.refs.
#[local] Existing Instance sample_dir.libs.
#[local] Existing Instance sample_dir.files_of.

(** Under [specs] the walk meets two directories and four files; the three
    files that end in [.yaml] are merged, the one in the subdirectory
    included, and become the inputs of the merger. *)
Lemma MergeFromDirectory_selects_witness :
  MergeFromDirectory sample_dir.merger "specs" "*.yaml"
  = (Merge (set_InputPaths sample_dir.merger
              ["specs/api-a.yaml"; "specs/archive/legacy.yaml";
               "specs/schemas.yaml"]),
     set_InputPaths sample_dir.merger
       ["specs/api-a.yaml"; "specs/archive/legacy.yaml"; "specs/schemas.yaml"]) ∧
  returned (MergeFromDirectory sample_dir.merger "specs" "*.yaml").1 = Ok ().
Proof.
  split; [|vm_compute; reflexivity].
  rewrite (MergeFromDirectory_selects sample_dir.merger "specs" "*.yaml").
  - reflexivity.
  - repeat constructor.
Defined.

(** Under [locked] a directory cannot be read: the file found before it is
    not merged. *)
Lemma MergeFromDirectory_walk_error_witness :
  MergeFromDirectory sample_dir.merger "locked" "*.yaml"
  = ({| returned :=
          Err "error finding files: open locked/private: permission denied";
        writes := [] |}, sample_dir.merger).
Proof.
  apply (MergeFromDirectory_walk_error sample_dir.merger "locked" "*.yaml"
           [("locked", Success true); ("locked/a.yaml", Success false);
            ("locked/private", Success true)]
           ("locked/private", Failure "open locked/private: permission denied")
           []).
  - reflexivity.
  - repeat constructor.
  - reflexivity.
Defined.

(** Given the directory [specs] and the pattern [*.yaml], the command line
    collects the three files [MergeFromDirectory] merges. *)
Lemma input_paths_agree_with_MergeFromDirectory_witness :
  input_paths "specs" "*.yaml"
  = ["specs/api-a.yaml"; "specs/archive/legacy.yaml"; "specs/schemas.yaml"] ∧
  MergeFromDirectory sample_dir.merger "specs" "*.yaml"
  = (Merge (set_InputPaths sample_dir.merger (input_paths "specs" "*.yaml")),
     set_InputPaths sample_dir.merger (input_paths "specs" "*.yaml")).
Proof.
  destruct (input_paths_agree_with_MergeFromDirectory
              sample_dir.merger "specs" "*.yaml") as [Hpaths Hmerge].
  - reflexivity.
  - discriminate.
  - reflexivity.
  - reflexivity.
  - reflexivity.
  - reflexivity.
  - repeat constructor.
  - split; [exact Hpaths|]. apply Hmerge. rewrite Hpaths. discriminate.
Defined.

(** Given [locked], the command line keeps the file found before the
    unreadable directory; given the file [specs/notes.txt], it takes it
    though the pattern is [*.yaml]. *)
Lemma input_paths_lenient_witness :
  input_paths "locked" "*.yaml" = ["locked/a.yaml"] ∧
  MergeFromDirectory sample_dir.merger "locked" "*.yaml"
  = ({| returned :=
          Err "error finding files: open locked/private: permission denied";
        writes := [] |}, sample_dir.merger) ∧
  input_paths "specs/notes.txt" "*.yaml" = ["specs/notes.txt"].
Proof.
  destruct (input_paths_lenient sample_dir.merger "locked" "*.yaml")
    as [_ Hdir]; [reflexivity|discriminate|reflexivity|reflexivity|reflexivity|].
  destruct (input_paths_lenient sample_dir.merger "specs/notes.txt" "*.yaml")
    as [Hfile _]; [reflexivity|discriminate|reflexivity|reflexivity|reflexivity|].
  destruct (Hdir [("locked", Success true); ("locked/a.yaml", Success false);
                  ("locked/private", Success true)]
                 "locked/private" "open locked/private: permission denied" [])
    as [Hpaths Hmerge]; [reflexivity|reflexivity|repeat constructor|].
  split; [rewrite Hpaths; reflexivity|]. split; [rewrite Hmerge; reflexivity|].
  apply Hfile. reflexivity.
Defined.

End directory_examples.
